(** * The customer-support pipeline: orchestrator.py and app.py

    A shallow embedding of the pipeline of [customer-support-pipeline]
    (fetch mail, classify, append to the record store, summarize, notify)
    and of the HTTP boundary that starts it, with the properties of its
    data flow and of its error containment.

    Conventions of the embedding.
    - A Python [str] is a [string]; one [ascii] is one character, so the
      texts considered are those of code points 0..255.  On that range the
      case folding that [re.IGNORECASE] and [str.lower] apply to the ASCII
      letters of the patterns is the ASCII one.
    - Every external call (Gmail, OpenAI, Notion, Slack, the clock) is an
      oracle of the [World]: its outcome may depend on all the calls made
      before it.  A call is recorded in a trace of [event]s.
    - A Python function is a computation [M A]: it takes the trace so far
      and gives back a value or a raised exception, and the new trace.
      [print] writes to the console only and is left out. *)

From Stdlib Require Import ZArith List Bool Ascii String Lia.
Import ListNotations.

Open Scope string_scope.
Open Scope list_scope.

(** ** Python values *)

Module Py.

(** [str.isspace] and the regex class [\s] on one character: TAB..CR,
    FS..US, SPACE, NEL, NBSP. *)
Definition is_space (c : ascii) : bool :=
  let n := nat_of_ascii c in
  (((9 <=? n) && (n <=? 13)) || ((28 <=? n) && (n <=? 32))
   || (n =? 133) || (n =? 160))%nat.

Definition newline : ascii := ascii_of_nat 10.

Definition is_newline (c : ascii) : bool := Ascii.eqb c newline.

(** Lower-casing of one character (ASCII letters). *)
Definition lower_char (c : ascii) : ascii :=
  let n := nat_of_ascii c in
  if ((65 <=? n) && (n <=? 90))%nat then ascii_of_nat (n + 32) else c.

(** [s.lower()] *)
Fixpoint lower (s : string) : string :=
  match s with
  | EmptyString => EmptyString
  | String c t => String (lower_char c) (lower t)
  end.

(** [s[:n]] *)
Fixpoint take (n : nat) (s : string) : string :=
  match n, s with
  | S n', String c t => String c (take n' t)
  | _, _ => EmptyString
  end.

(** [s.lstrip()] *)
Fixpoint lstrip (s : string) : string :=
  match s with
  | EmptyString => EmptyString
  | String c t => if is_space c then lstrip t else s
  end.

(** [s.rstrip()] *)
Fixpoint rstrip (s : string) : string :=
  match s with
  | EmptyString => EmptyString
  | String c t =>
      match rstrip t with
      | EmptyString => if is_space c then EmptyString else String c EmptyString
      | r => String c r
      end
  end.

(** [s.strip()] *)
Definition strip (s : string) : string := rstrip (lstrip s).

(** Truth value of a string: [''] is false. *)
Definition truthy (s : string) : bool :=
  match s with EmptyString => false | _ => true end.

(** Truth value of [os.getenv(...)]: unset or empty is false. *)
Definition env_set (v : option string) : bool :=
  match v with Some s => truthy s | None => false end.

(** The value of a variable that is set. *)
Definition env_value (v : option string) : string :=
  match v with Some s => s | None => EmptyString end.

(** [a or b] on strings. *)
Definition or_else (a b : string) : string := if truthy a then a else b.

(** A raised exception: its class and [str(e)].  Every exception of the
    model is an instance of [Exception]. *)
Record exn : Type := Exn { exn_class : string; exn_str : string }.

Inductive outcome (A : Type) : Type :=
| Ok (a : A)
| Raise (e : exn).
Arguments Ok {A} a.
Arguments Raise {A} e.

(** Floats of a JSON body: NaN, the infinities, and the finite values
    [m * 2^e]. *)
Inductive pyfloat : Type :=
| FNan
| FInf (negative : bool)
| FFin (m e : Z).

(** [f < k] and [f > k] for a float and an integer (Python compares the
    two exactly); both are false on NaN. *)
Definition float_ltb (f : pyfloat) (k : Z) : bool :=
  match f with
  | FNan => false
  | FInf negative => negative
  | FFin m e => if (0 <=? e)%Z then (m * 2 ^ e <? k)%Z else (m <? k * 2 ^ (- e))%Z
  end.

Definition float_gtb (f : pyfloat) (k : Z) : bool :=
  match f with
  | FNan => false
  | FInf negative => negb negative
  | FFin m e => if (0 <=? e)%Z then (k <? m * 2 ^ e)%Z else (k * 2 ^ (- e) <? m)%Z
  end.

(** [int(f)]: truncation toward zero; NaN and the infinities raise. *)
Definition int_of_float (f : pyfloat) : outcome Z :=
  match f with
  | FNan => Raise (Exn "ValueError" "cannot convert float NaN to integer")
  | FInf _ => Raise (Exn "OverflowError" "cannot convert float infinity to integer")
  | FFin m e => Ok (if (0 <=? e)%Z then m * 2 ^ e else Z.quot m (2 ^ (- e)))%Z
  end.

End Py.

Export Py.

(** ** The three patterns of [classify_issue]

    [re.search(r'Label:\s*(.+)', text, re.IGNORECASE)]: the leftmost
    position where the label matches without regard to case, followed by
    the longest run of white space that still leaves at least one character
    other than a newline for the group, and then the group: every character
    up to the next newline. *)

Module Re.

(** The literal part, matched at the head of [s]; gives the rest. *)
Fixpoint match_literal (lit s : string) : option string :=
  match lit, s with
  | EmptyString, _ => Some s
  | String p lit', String c s' =>
      if Ascii.eqb (lower_char c) (lower_char p) then match_literal lit' s' else None
  | String _ _, EmptyString => None
  end.

(** The longest prefix without a newline. *)
Fixpoint line_prefix (s : string) : string :=
  match s with
  | EmptyString => EmptyString
  | String c t => if is_newline c then EmptyString else String c (line_prefix t)
  end.

(** [(.+)] at the head of [s]: greedy, and nothing follows it. *)
Definition dot_plus (s : string) : option string :=
  match line_prefix s with
  | EmptyString => None
  | g => Some g
  end.

(** [\s*(.+)] at the head of [s]: [\s*] first takes one more white-space
    character; when the rest cannot match, it gives the character back. *)
Fixpoint spaces_then_group (s : string) : option string :=
  match s with
  | String c t =>
      if is_space c then
        match spaces_then_group t with
        | Some g => Some g
        | None => dot_plus s
        end
      else dot_plus s
  | EmptyString => dot_plus s
  end.

(** The whole pattern at the head of [s]: [group(1)] of the match. *)
Definition match_here (label s : string) : option string :=
  match match_literal label s with
  | Some rest => spaces_then_group rest
  | None => None
  end.

(** [re.search]: the first position, from the left, with a match. *)
Fixpoint search (label s : string) : option string :=
  match match_here label s with
  | Some g => Some g
  | None =>
      match s with
      | EmptyString => None
      | String _ t => search label t
      end
  end.

End Re.

(** ** Data of the pipeline *)

Module Data.

(** One fetched message, as [fetch_customer_emails] builds it. *)
Record email : Type := Email {
  id : string;
  subject : string;
  sender : string;
  date : string;
  body : string
}.

(** The result of [classify_issue]. *)
Record classification : Type := Classification {
  category : string;
  priority : string;
  summary : string
}.

(** A message of the Gmail API ([format='full']): the headers, and either
    a list of parts or a single body. *)
Record header : Type := Header { h_name : string; h_value : string }.

Record part : Type := Part {
  mimeType : string;
  part_data : option string      (* part.get('body', {})['data'], when present *)
}.

Record gmail_message : Type := GmailMessage {
  headers : list header;
  parts : option (list part);    (* None: no 'parts' key in the payload *)
  body_data : option string      (* payload['body']['data'], when present *)
}.

(** The property bag that [add_to_notion] sends to [pages.create]. *)
Record notion_properties : Type := NotionProperties {
  np_title : string;
  np_description : string;
  np_root_cause : string;
  np_priority : string;
  np_status : string;
  np_date : string
}.

(** A row returned by [databases.query].  For the two selects, [None]
    stands for a missing key, a null or an empty object, which the truth
    test of the code treats alike.  For [name], [text] and [content],
    [None] stands for a missing key, for which [.get] gives its default. *)
Record select_obj : Type := SelectObj { sel_name : option string }.

Record text_obj : Type := TextObj { content : option string }.

Record title_item : Type := TitleItem { text : option text_obj }.

Record page : Type := Page {
  root_cause_select : option select_obj;   (* props['Root Cause']['select'] *)
  priority_select : option select_obj;     (* props['Priority']['select'] *)
  title_array : list title_item            (* props['Title']['title'] *)
}.

(** A [dict] from strings to counts, in insertion order. *)
Definition dict : Type := list (string * nat).

(** [d.get(k, default)] *)
Fixpoint dict_get (d : dict) (k : string) (default : nat) : nat :=
  match d with
  | [] => default
  | (k', v) :: rest => if String.eqb k' k then v else dict_get rest k default
  end.

(** [d[k] = v] *)
Fixpoint dict_set (d : dict) (k : string) (v : nat) : dict :=
  match d with
  | [] => [(k, v)]
  | (k', v') :: rest =>
      if String.eqb k' k then (k', v) :: rest else (k', v') :: dict_set rest k v
  end.

(** The summary dictionary of [get_notion_summary]. *)
Record counts : Type := Counts {
  total : nat;
  by_category : dict;
  by_priority : dict;
  high_priority : list string
}.

Inductive notion_summary : Type :=
| SummaryError (error : string)      (* {'error': ...} *)
| Summary (s : counts).

(** The text posted to Slack, line by line. *)
Inductive digest_line : Type :=
| Bullet (key : string) (count : nat)   (* "* {key}: {count}" *)
| BulletNone                            (* "* None" *)
| HighItem (title : string)             (* the red marker, then the title *)
| NoHighItems.                          (* "No high priority issues" *)

Record digest : Type := Digest {
  digest_total : nat;
  category_text : list digest_line;
  priority_text : list digest_line;
  high_priority_text : list digest_line
}.

(** The dictionary returned by [run_full_pipeline]. *)
Record RunResult : Type := MkRunResult {
  emails_found : nat;
  emails_processed : nat;
  digest_sent : bool;
  error : option string
}.

End Data.

Export Data.

(** ** External calls, the world, and computations *)

Inductive event : Type :=
| GmailAuth
| GmailList (after : Z)
| GmailGet (msg_id : string)
| OpenAIChat (prompt : string)
| NotionCreate (database_id : string) (properties : notion_properties)
| NotionQuery (database_id : string)
| SlackPost (url : string) (message : digest).

Definition trace : Type := list event.

Record World : Type := MkWorld {
  (* configuration, read from the environment at import *)
  OPENAI_API_KEY : option string;
  NOTION_TOKEN : option string;
  NOTION_DATABASE_ID : option string;
  SLACK_WEBHOOK_URL : option string;
  (* the clock *)
  time_ago : trace -> Z -> outcome Z;        (* now - timedelta(hours=h), as a timestamp *)
  today : trace -> string;                   (* datetime.now().strftime("%Y-%m-%d") *)
  (* library function *)
  b64decode_utf8 : string -> outcome string; (* urlsafe_b64decode(..).decode('utf-8', errors='ignore') *)
  (* services *)
  gmail_auth : trace -> outcome unit;
  gmail_list : trace -> Z -> outcome (list string);
  gmail_get : trace -> string -> outcome gmail_message;
  openai_chat : trace -> string -> outcome (option string);
  notion_create : trace -> string -> notion_properties -> outcome unit;
  notion_query : trace -> string -> outcome (list page);
  slack_post : trace -> string -> digest -> outcome Z
}.

Module Comp.

Definition M (A : Type) : Type := trace -> outcome A * trace.

Definition ret {A} (a : A) : M A := fun tr => (Ok a, tr).

Definition raise {A} (e : exn) : M A := fun tr => (Raise e, tr).

Definition bind {A B} (m : M A) (k : A -> M B) : M B :=
  fun tr =>
    match m tr with
    | (Ok a, tr') => k a tr'
    | (Raise e, tr') => (Raise e, tr')
    end.

(** [try: m  except Exception as e: handler e] *)
Definition try_except {A} (m : M A) (handler : exn -> M A) : M A :=
  fun tr =>
    match m tr with
    | (Ok a, tr') => (Ok a, tr')
    | (Raise e, tr') => handler e tr'
    end.

(** A pure step that may raise. *)
Definition lift {A} (o : outcome A) : M A := fun tr => (o, tr).

(** An external call: its outcome is the oracle's, given the calls made
    so far; the call is appended to the trace. *)
Definition call {A} (ev : event) (oracle : trace -> outcome A) : M A :=
  fun tr => (oracle tr, tr ++ [ev]).

(** Reading the clock leaves no event. *)
Definition read {A} (f : trace -> A) : M A := fun tr => (Ok (f tr), tr).

End Comp.

Export Comp.

Declare Scope comp_scope.
Delimit Scope comp_scope with comp.
Notation "x <- m ;; k" := (bind m (fun x => k))
  (at level 61, m at next level, right associativity) : comp_scope.
Notation "m ;;; k" := (bind m (fun _ => k))
  (at level 61, right associativity) : comp_scope.
Open Scope comp_scope.

(** ** orchestrator.py *)

Module Orchestrator.

Section WithWorld.

Variable w : World.

(** [client = OpenAI(api_key=OPENAI_API_KEY) if OPENAI_API_KEY else None] *)
Definition client : bool := env_set (OPENAI_API_KEY w).

(** [notion = Client(auth=NOTION_TOKEN) if NOTION_TOKEN else None] *)
Definition notion : bool := env_set (NOTION_TOKEN w).

(** *** Gmail *)

(** [authenticate_gmail]: loading, refreshing or requesting the
    credential and building the service is one external step, which
    gives the service or raises. *)
Definition authenticate_gmail : M unit := call GmailAuth (gmail_auth w).

(** [next((h['value'] for h in headers if h['name'].lower() == name), default)] *)
Fixpoint header_value (hs : list header) (name default : string) : string :=
  match hs with
  | [] => default
  | h :: rest =>
      if String.eqb (lower (h_name h)) name then h_value h
      else header_value rest name default
  end.

(** The loop over [message['payload']['parts']]: the first part of type
    [text/plain] that has data is decoded, and the loop breaks. *)
Fixpoint first_plain_part (ps : list part) : outcome string :=
  match ps with
  | [] => Ok ""
  | p :: rest =>
      match String.eqb (mimeType p) "text/plain", part_data p with
      | true, Some data => b64decode_utf8 w data
      | _, _ => first_plain_part rest
      end
  end.

Definition extract_body (message : gmail_message) : outcome string :=
  match parts message with
  | Some ps => first_plain_part ps
  | None =>
      match body_data message with
      | Some data => b64decode_utf8 w data
      | None => Ok ""
      end
  end.

(** The body of the [try] inside the loop of [fetch_customer_emails]:
    one message is retrieved and turned into an [email]. *)
Definition process_message (msg_id : string) : M email :=
  message <- call (GmailGet msg_id) (fun tr => gmail_get w tr msg_id) ;;
  let hs := headers message in
  let subject := header_value hs "subject" "No Subject" in
  let sender := header_value hs "from" "Unknown" in
  let date := header_value hs "date" "" in
  body <- lift (extract_body message) ;;
  ret (Email msg_id subject sender date (take 500 body)).

(** [for msg in messages: try: ... emails.append(...) except: continue] *)
Fixpoint fetch_loop (messages : list string) (emails : list email) : M (list email) :=
  match messages with
  | [] => ret emails
  | msg :: rest =>
      emails' <- try_except
                   (e <- process_message msg ;; ret (emails ++ [e]))
                   (fun _ => ret emails) ;;
      fetch_loop rest emails'
  end.

Definition fetch_customer_emails (hours_back : Z) : M (list email) :=
  try_except
    (after <- (fun tr => (time_ago w tr hours_back, tr)) ;;
     messages <- call (GmailList after) (fun tr => gmail_list w tr after) ;;
     fetch_loop messages [])
    (fun _ => ret []).

(** *** Classification *)

Definition nl : string := String newline EmptyString.

Definition prompt (subject body : string) : string :=
  "You are an IT maintenance assistant. Analyze this email and classify the issue." ++ nl
  ++ nl
  ++ "Email Subject: " ++ subject ++ nl
  ++ "Email Body: " ++ take 500 body ++ nl
  ++ nl
  ++ "Classify into ONE category:" ++ nl
  ++ "- Hardware (physical equipment problems)" ++ nl
  ++ "- Software (application/program issues)  " ++ nl
  ++ "- Network (connectivity problems)" ++ nl
  ++ "- User Error (user mistakes)" ++ nl
  ++ "- Security (security threats)" ++ nl
  ++ "- Other" ++ nl
  ++ nl
  ++ "Priority: High, Medium, or Low" ++ nl
  ++ nl
  ++ "Respond EXACTLY like this:" ++ nl
  ++ "Category: [category]" ++ nl
  ++ "Priority: [priority]" ++ nl
  ++ "Summary: [one sentence summary]".

(** [m.group(1).strip() if m else default] *)
Definition field (label default result : string) : string :=
  match Re.search label result with
  | Some g => strip g
  | None => default
  end.

Definition fallback (subject : string) : classification :=
  Classification "Other" "Medium" subject.

Definition classify_issue (subject body : string) : M classification :=
  if negb client then ret (fallback subject)
  else
    let p := prompt subject body in
    try_except
      (message_content <- call (OpenAIChat p) (fun tr => openai_chat w tr p) ;;
       match message_content with
       | None => raise (Exn "AttributeError" "'NoneType' object has no attribute 'strip'")
       | Some content =>
           let result := strip content in
           ret (Classification (field "Category:" "Other" result)
                               (field "Priority:" "Medium" result)
                               (field "Summary:" subject result))
       end)
      (fun _ => ret (fallback subject)).

(** *** Notion *)

Definition add_to_notion (email : email) (classification : classification) : M bool :=
  if negb notion || negb (env_set (NOTION_DATABASE_ID w)) then ret false
  else
      let database_id := env_value (NOTION_DATABASE_ID w) in
      try_except
        (let subject_text := take 100 (or_else (subject email) "No Subject") in
         let body_text := take 2000 (or_else (body email) "No content") in
         start <- read (today w) ;;
         let properties :=
           NotionProperties subject_text body_text
                            (category classification) (priority classification)
                            "New" start in
         call (NotionCreate database_id properties)
              (fun tr => notion_create w tr database_id properties) ;;;
         ret true)
        (fun _ => ret false).

(** One turn of the loop of [get_notion_summary]. *)
Definition count_page (summary : counts) (page : page) : counts :=
  let summary :=
    match root_cause_select page with
    | Some root_cause_obj =>
        let category := match sel_name root_cause_obj with Some n => n | None => "Other" end in
        Counts (total summary)
               (dict_set (by_category summary) category
                         (dict_get (by_category summary) category 0 + 1))
               (by_priority summary) (high_priority summary)
    | None => summary
    end in
  match priority_select page with
  | Some priority_obj =>
      let priority := match sel_name priority_obj with Some n => n | None => "Medium" end in
      let summary :=
        Counts (total summary) (by_category summary)
               (dict_set (by_priority summary) priority
                         (dict_get (by_priority summary) priority 0 + 1))
               (high_priority summary) in
      if String.eqb priority "High" then
        match title_array page with
        | item :: _ =>
            let title :=
              match text item with
              | Some t => match content t with Some c => c | None => "No title" end
              | None => "No title"
              end in
            Counts (total summary) (by_category summary) (by_priority summary)
                   (high_priority summary ++ [title])
        | [] => summary
        end
      else summary
  | None => summary
  end.

Definition get_notion_summary : M notion_summary :=
  if negb notion || negb (env_set (NOTION_DATABASE_ID w))
  then ret (SummaryError "Notion not configured")
  else
      let database_id := env_value (NOTION_DATABASE_ID w) in
      try_except
        (results <- call (NotionQuery database_id)
                         (fun tr => notion_query w tr database_id) ;;
         let summary := Counts (List.length results) [] [] [] in
         ret (Summary (fold_left count_page results summary)))
        (fun e => ret (SummaryError (exn_str e))).

(** *** Slack *)

Definition bullets (d : dict) : list digest_line :=
  match map (fun kv => Bullet (fst kv) (snd kv)) d with
  | [] => [BulletNone]
  | lines => lines
  end.

Definition send_slack_digest (summary : notion_summary) : M bool :=
  if negb (env_set (SLACK_WEBHOOK_URL w)) then ret false
  else
      let url := env_value (SLACK_WEBHOOK_URL w) in
      match summary with
      | SummaryError _ => ret false
      | Summary s =>
          let category_text := bullets (by_category s) in
          let priority_text := bullets (by_priority s) in
          let high_priority_text :=
            match high_priority s with
            | [] => [NoHighItems]
            | items => map HighItem (firstn 5 items)
            end in
          let message := Digest (total s) category_text priority_text high_priority_text in
          try_except
            (status_code <- call (SlackPost url message)
                                 (fun tr => slack_post w tr url message) ;;
             if (status_code =? 200)%Z then ret true else ret false)
            (fun _ => ret false)
      end.

(** *** The pipeline *)

(** Step 1 of [run_full_pipeline], the body of its first [try]. *)
Definition fetch_step (hours_back : Z) : M (list email) :=
  authenticate_gmail ;;;
  fetch_customer_emails hours_back.

(** Step 2: [for i, email in enumerate(emails, 1): try: ... except: ...] *)
Fixpoint classify_loop (emails : list email) (processed : nat) : M nat :=
  match emails with
  | [] => ret processed
  | email :: rest =>
      processed' <- try_except
                      (classification <- classify_issue (subject email) (body email) ;;
                       added <- add_to_notion email classification ;;
                       ret (if added : bool then processed + 1 else processed))
                      (fun _ => ret processed) ;;
      classify_loop rest processed'
  end.

(** Step 3, the body of the last [try] and its handler. *)
Definition digest_step : M bool :=
  try_except
    (summary <- get_notion_summary ;;
     match summary with
     | Summary _ => send_slack_digest summary
     | SummaryError _ => ret false
     end)
    (fun _ => ret false).

Definition run_full_pipeline (hours_back : Z) : M RunResult :=
  fun tr =>
    match fetch_step hours_back tr with
    | (Raise e, tr1) => (Ok (MkRunResult 0 0 false (Some (exn_str e))), tr1)
    | (Ok emails, tr1) =>
        (processed <- classify_loop emails 0 ;;
         digest_sent <- digest_step ;;
         ret (MkRunResult (List.length emails) processed digest_sent None)) tr1
    end.

End WithWorld.

End Orchestrator.

(** ** app.py: the route /api/run-pipeline *)

Module App.

(** The value of ['hours'] in the JSON body of the request. *)
Inductive json : Type :=
| JInt (z : Z)
| JFloat (f : pyfloat)
| JBool (b : bool)
| JOther.                      (* a string, null, a list or an object *)

(** [isinstance(hours, (int, float))]: [bool] is a subclass of [int]. *)
Definition is_int_or_float (v : json) : bool :=
  match v with
  | JInt _ | JFloat _ | JBool _ => true
  | JOther => false
  end.

(** [hours < k] and [hours > k], for a number. *)
Definition ltb (v : json) (k : Z) : bool :=
  match v with
  | JInt z => (z <? k)%Z
  | JFloat f => float_ltb f k
  | JBool b => (Z.b2z b <? k)%Z
  | JOther => false
  end.

Definition gtb (v : json) (k : Z) : bool :=
  match v with
  | JInt z => (k <? z)%Z
  | JFloat f => float_gtb f k
  | JBool b => (k <? Z.b2z b)%Z
  | JOther => false
  end.

(** [int(hours)], for a number. *)
Definition int (v : json) : outcome Z :=
  match v with
  | JInt z => Ok z
  | JFloat f => int_of_float f
  | JBool b => Ok (Z.b2z b)
  | JOther => Raise (Exn "TypeError" "int() argument must be a string, a bytes-like object or a real number")
  end.

(** [jsonify({...}), status]. *)
Record response : Type := Response {
  status : Z;
  success : bool;
  error_message : option string;
  result : option RunResult
}.

(** [run_pipeline]; [hours_field] is [None] when the body has no
    ['hours'] key. *)
Definition run_pipeline (w : World) (hours_field : option json) : M response :=
  try_except
    (let hours := match hours_field with Some v => v | None => JInt 24 end in
     if negb (is_int_or_float hours) || ltb hours 1 || gtb hours 168 then
       ret (Response 400 false (Some "Hours must be between 1 and 168") None)
     else
       hours_back <- lift (int hours) ;;
       result <- Orchestrator.run_full_pipeline w hours_back ;;
       ret (Response 200 true None (Some result)))
    (fun e =>
       if String.eqb (exn_class e) "NotImplementedError" then
         ret (Response 501 false (Some "Pipeline not configured") None)
       else
         ret (Response 500 false (Some ("Pipeline failed: " ++ exn_str e)%string) None)).

End App.

Import Orchestrator.

(** ** Vocabulary of the properties *)

(** The enumerated options of a record's category and priority. *)
Definition categories : list string :=
  ["Hardware"; "Software"; "Network"; "UserError"; "Security"; "Other"].

Definition priorities : list string := ["High"; "Medium"; "Low"].

(** A computation that returns normally from every trace. *)
Definition never_raises {A} (m : M A) : Prop :=
  forall tr, exists a tr', m tr = (Ok a, tr').

(** The label occurs in the text, without regard to case. *)
Definition occurs (label text : string) : Prop :=
  exists pre mid post : string,
    text = (pre ++ mid ++ post)%string /\ lower mid = lower label.

(** The property bag that [add_to_notion] builds for a message and its
    classification, at a given point of the run. *)
Definition record_of (w : World) (tr : trace) (e : email) (c : classification)
  : notion_properties :=
  NotionProperties (take 100 (or_else (subject e) "No Subject"))
                   (take 2000 (or_else (body e) "No content"))
                   (category c) (priority c) "New" (today w tr).

Definition store_configured (w : World) : bool :=
  notion w && env_set (NOTION_DATABASE_ID w).

Definition database_id (w : World) : string := env_value (NOTION_DATABASE_ID w).

Definition webhook_configured (w : World) : bool := env_set (SLACK_WEBHOOK_URL w).

Definition webhook_url (w : World) : string := env_value (SLACK_WEBHOOK_URL w).

(** The category, the priority and the title that the summary reads in a
    row; [None] when the row has none. *)
Definition row_category (p : page) : option string :=
  match root_cause_select p with
  | Some o => Some (match sel_name o with Some n => n | None => "Other" end)
  | None => None
  end.

Definition row_priority (p : page) : option string :=
  match priority_select p with
  | Some o => Some (match sel_name o with Some n => n | None => "Medium" end)
  | None => None
  end.

Definition row_title (p : page) : option string :=
  match title_array p with
  | item :: _ =>
      Some (match text item with
            | Some t => match content t with Some c => c | None => "No title" end
            | None => "No title"
            end)
  | [] => None
  end.

Definition is_value (k : string) (o : option string) : bool :=
  match o with Some v => String.eqb v k | None => false end.

(** The number of rows with a given category, with a given priority. *)
Definition count_category (rows : list page) (c : string) : nat :=
  List.length (filter (fun p => is_value c (row_category p)) rows).

Definition count_priority (rows : list page) (c : string) : nat :=
  List.length (filter (fun p => is_value c (row_priority p)) rows).

(** The titles of the rows of priority High, in the order of the rows. *)
Definition high_titles (rows : list page) : list string :=
  flat_map (fun p => if is_value "High" (row_priority p)
                     then match row_title p with Some t => [t] | None => [] end
                     else [])
           rows.

(** The summary of a list of rows, as [get_notion_summary] folds it. *)
Definition summarize (rows : list page) : counts :=
  fold_left count_page rows (Counts (List.length rows) [] [] []).

(** The summary that the specification describes for a list of rows. *)
Definition summary_as_specified (rows : list page) (s : counts) : Prop :=
  total s = List.length rows
  /\ (forall c, dict_get (by_category s) c 0 = count_category rows c)
  /\ (forall c, dict_get (by_priority s) c 0 = count_priority rows c)
  /\ high_priority s = firstn 5 (high_titles rows).

(** The sum of the counts of a dictionary. *)
Definition dict_sum (d : dict) : nat :=
  fold_right (fun kv acc => snd kv + acc) 0 d.

(** The messages that the loop of [fetch_customer_emails] keeps: a message
    whose processing raises is left out, the others are kept in order. *)
Inductive extracted (w : World) : list string -> trace -> list email -> trace -> Prop :=
| extracted_nil tr :
    extracted w [] tr [] tr
| extracted_skip msg rest tr err tr1 emails tr2 :
    process_message w msg tr = (Raise err, tr1) ->
    extracted w rest tr1 emails tr2 ->
    extracted w (msg :: rest) tr emails tr2
| extracted_keep msg rest tr e tr1 emails tr2 :
    process_message w msg tr = (Ok e, tr1) ->
    extracted w rest tr1 emails tr2 ->
    extracted w (msg :: rest) tr (e :: emails) tr2.

(** An ['hours'] value that is a number of the interval [1, 168]. *)
Definition in_range (v : App.json) : Prop :=
  match v with
  | App.JInt z => (1 <= z <= 168)%Z
  | App.JBool b => (1 <= Z.b2z b <= 168)%Z
  | App.JFloat (FFin m e) =>
      if (0 <=? e)%Z then (1 <= m * 2 ^ e <= 168)%Z
      else (2 ^ (- e) <= m <= 168 * 2 ^ (- e))%Z
  | _ => False
  end.

(** An event of the Gmail service. *)
Definition is_gmail_event (ev : event) : bool :=
  match ev with
  | GmailAuth | GmailList _ | GmailGet _ => true
  | _ => false
  end.

(** What one row adds to each part of the summary. *)
Definition add_count (d : dict) (key : option string) : dict :=
  match key with
  | Some k => dict_set d k (dict_get d k 0 + 1)
  | None => d
  end.

Definition add_high (titles : list string) (p : page) : list string :=
  titles ++ (if is_value "High" (row_priority p)
             then match row_title p with Some t => [t] | None => [] end
             else []).

(** ** Example worlds and rows *)

(** A world where everything is configured and every service answers:
    the model with [chat], the store query with [rows]. *)
Definition example_world (chat : outcome (option string)) (rows : outcome (list page))
  : World :=
  MkWorld (Some "sk-test") (Some "secret") (Some "db") (Some "https://hooks.example/T")
          (fun _ h => Ok (1700000000 - 3600 * h)%Z)
          (fun _ => "2024-01-01")
          (fun data => Ok data)
          (fun _ => Ok tt)
          (fun _ _ => Ok ["m1"; "m2"])
          (fun _ _ => Ok (GmailMessage [Header "Subject" "Printer"] None (Some "jam")))
          (fun _ _ => chat)
          (fun _ _ _ => Ok tt)
          (fun _ _ => rows)
          (fun _ _ _ => Ok 200%Z).

(** A row with a category, a priority and a title. *)
Definition row (category priority title : string) : page :=
  Page (Some (SelectObj (Some category))) (Some (SelectObj (Some priority)))
       [TitleItem (Some (TextObj (Some title)))].

(** Six rows of priority High. *)
Definition six_high_rows : list page :=
  map (row "Hardware" "High") ["t1"; "t2"; "t3"; "t4"; "t5"; "t6"].

(** A High row between two rows whose selects are empty. *)
Definition rows_with_gaps : list page :=
  [ Page None None [TitleItem (Some (TextObj (Some "untagged")))];
    row "Network" "High" "router down";
    Page (Some (SelectObj (Some "Software"))) None [] ].

(** A reply of the model outside the enumerated options. *)
Definition free_text_reply : string :=
  "Category: Hardware (physical equipment problems)" ++ nl ++ "Priority: Critical".

Definition printer_email : email :=
  Email "m1" "Printer" "ann@example.org" "Mon, 1 Jan 2024" "jam".

(** A world without [credentials.json]: [authenticate_gmail] raises. *)
Definition missing_credentials : exn :=
  Exn "FileNotFoundError"
      "credentials.json not found. Please download from Google Cloud Console.".

Definition no_credentials_world : World :=
  MkWorld (Some "sk-test") (Some "secret") (Some "db") (Some "https://hooks.example/T")
          (fun _ h => Ok (1700000000 - 3600 * h)%Z)
          (fun _ => "2024-01-01")
          (fun data => Ok data)
          (fun _ => Raise missing_credentials)
          (fun _ _ => Ok ["m1"; "m2"])
          (fun _ _ => Ok (GmailMessage [Header "Subject" "Printer"] None (Some "jam")))
          (fun _ _ => Ok (Some "Category: Network"))
          (fun _ _ _ => Ok tt)
          (fun _ _ => Ok [])
          (fun _ _ _ => Ok 200%Z).

(** A world where the first message cannot be retrieved. *)
Definition flaky_mail_world : World :=
  MkWorld None None None None
          (fun _ h => Ok (1700000000 - 3600 * h)%Z)
          (fun _ => "2024-01-01")
          (fun data => Ok data)
          (fun _ => Ok tt)
          (fun _ _ => Ok ["m1"; "m2"])
          (fun _ msg_id =>
             if String.eqb msg_id "m1" then Raise (Exn "HttpError" "404 Not Found")
             else Ok (GmailMessage [Header "From" "ann@example.org"; Header "SUBJECT" "VPN"]
                                   (Some [Part "text/html" (Some "<p>down</p>");
                                          Part "text/plain" (Some "down")])
                                   None))
          (fun _ _ => Ok None)
          (fun _ _ _ => Ok tt)
          (fun _ _ => Ok [])
          (fun _ _ _ => Ok 200%Z).

(** Three rows: Hardware/High, Network/Medium, Hardware/High. *)
Definition three_rows : list page :=
  [ row "Hardware" "High" "printer"; row "Network" "Medium" "wifi";
    row "Hardware" "High" "laptop" ].

(** ** app.py: the other routes, the scheduled job and the last-run status *)

Module Routes.

(** [last_run_info] *)
Record last_run : Type := LastRun {
  lr_timestamp : option string;
  lr_status : string;
  lr_emails_processed : nat
}.

(** Its value when the application starts. *)
Definition never_run : last_run := LastRun None "Never run" 0.

(** The response of /api/fetch. *)
Record fetch_response : Type := FetchResponse {
  fetch_status : Z;
  fetch_success : bool;
  fetch_error : option string;
  fetch_count : option nat;
  fetch_emails_preview : list email
}.

(** A JSON object sent to /api/classify, with or without its two fields;
    a field that is there holds a string. *)
Record classify_request : Type := ClassifyRequest {
  request_subject : option string;
  request_body : option string
}.

(** What [request.get_json()] returns to [classify_single]: a value that
    Python takes for false ([None], null, false, 0, an empty string, array
    or object), or an object with at least one key.  The other JSON values
    (a number, true, a string or an array that is not empty) are left out. *)
Inductive json_body : Type :=
| Falsy
| Object (fields : classify_request).

Record classify_response : Type := ClassifyResponse {
  classify_status : Z;
  classify_success : bool;
  classify_error : option string;
  classify_result : option classification
}.

(** The response of /api/send-digest. *)
Record digest_response : Type := DigestResponse {
  digest_status : Z;
  digest_success : bool;
  digest_error : option string;
  digest_summary : option notion_summary
}.

Section WithWorld.

Variable w : World.

(** [datetime.now().strftime('%Y-%m-%d %H:%M:%S')] *)
Variable timestamp : trace -> string.

(** [last_run_info['status'] = f'Error: {str(e)}'] *)
Definition record_error (last_run_info : last_run) (e : exn) : last_run :=
  LastRun (lr_timestamp last_run_info) ("Error: " ++ exn_str e)
          (lr_emails_processed last_run_info).

(** [scheduled_job]; it returns the new value of [last_run_info]. *)
Definition scheduled_job (last_run_info : last_run) : M last_run :=
  try_except
    (result <- run_full_pipeline w 168 ;;
     now <- read timestamp ;;
     ret (LastRun (Some now) "Success (Scheduled)" (emails_processed result)))
    (fun e => ret (record_error last_run_info e)).

(** [run_pipeline], with the global [last_run_info] that it updates. *)
Definition run_pipeline (hours_field : option App.json) (last_run_info : last_run)
  : M (App.response * last_run) :=
  try_except
    (let hours := match hours_field with Some v => v | None => App.JInt 24 end in
     if negb (App.is_int_or_float hours) || App.ltb hours 1 || App.gtb hours 168 then
       ret (App.Response 400 false (Some "Hours must be between 1 and 168") None,
            last_run_info)
     else
       hours_back <- lift (App.int hours) ;;
       result <- run_full_pipeline w hours_back ;;
       now <- read timestamp ;;
       ret (App.Response 200 true None (Some result),
            LastRun (Some now) "Success" (emails_processed result)))
    (fun e =>
       if String.eqb (exn_class e) "NotImplementedError" then
         ret (App.Response 501 false (Some "Pipeline not configured") None, last_run_info)
       else
         ret (App.Response 500 false (Some ("Pipeline failed: " ++ exn_str e)%string) None,
              record_error last_run_info e)).

(** [fetch_emails] *)
Definition fetch_emails (hours_field : option App.json) : M fetch_response :=
  try_except
    (let hours := match hours_field with Some v => v | None => App.JInt 24 end in
     if negb (App.is_int_or_float hours) || App.ltb hours 1 || App.gtb hours 168 then
       ret (FetchResponse 400 false (Some "Hours must be between 1 and 168") None [])
     else
       authenticate_gmail w ;;;
       hours_back <- lift (App.int hours) ;;
       emails <- fetch_customer_emails w hours_back ;;
       ret (FetchResponse 200 true None (Some (List.length emails)) (firstn 10 emails)))
    (fun e =>
       if String.eqb (exn_class e) "NotImplementedError" then
         ret (FetchResponse 501 false (Some "Gmail integration not configured") None [])
       else
         ret (FetchResponse 500 false
                (Some ("Failed to fetch emails: " ++ exn_str e)%string) None [])).

(** [classify_single]; [get_json] is the outcome of [request.get_json()],
    which is called inside the [try]: it raises when the request has no
    JSON body or one that cannot be parsed, and the handlers below then
    answer. *)
Definition classify_single (get_json : outcome json_body) : M classify_response :=
  try_except
    (data <- lift get_json ;;
     match data with
     | Object (ClassifyRequest (Some subject) (Some body)) =>
         result <- classify_issue w subject body ;;
         ret (ClassifyResponse 200 true None (Some result))
     | _ =>
         ret (ClassifyResponse 400 false
                (Some "Missing required fields: subject and body") None)
     end)
    (fun e =>
       if String.eqb (exn_class e) "NotImplementedError" then
         ret (ClassifyResponse 501 false (Some "Classification not configured") None)
       else
         ret (ClassifyResponse 500 false
                (Some ("Classification failed: " ++ exn_str e)%string) None)).

(** [send_digest] *)
Definition send_digest : M digest_response :=
  try_except
    (summary <- get_notion_summary w ;;
     match summary with
     | SummaryError error =>
         ret (DigestResponse 500 false
                (Some ("Failed to get summary: " ++ error)%string) None)
     | Summary _ =>
         success <- send_slack_digest w summary ;;
         ret (DigestResponse 200 success None (Some summary))
     end)
    (fun e =>
       if String.eqb (exn_class e) "NotImplementedError" then
         ret (DigestResponse 501 false (Some "Slack integration not configured") None)
       else
         ret (DigestResponse 500 false
                (Some ("Failed to send digest: " ++ exn_str e)%string) None)).

End WithWorld.

End Routes.

(** A clock for the examples. *)
Definition example_timestamp : trace -> string := fun _ => "2024-01-01 09:00:00".

(** ** orchestrator.py: the steps of [authenticate_gmail] *)

Module Authenticate.

(** What the function reads of a [Credentials] object. *)
Record credentials : Type := Credentials {
  cred_token : string;
  valid : bool;
  expired : bool;
  refresh_token : bool           (* a refresh token is present *)
}.

(** The files and the services that the function uses. *)
Record environment : Type := Environment {
  token_exists : bool;                                 (* os.path.exists('token.json') *)
  from_authorized_user_file : outcome credentials;     (* reading token.json *)
  refresh : credentials -> outcome credentials;        (* creds.refresh(Request()) *)
  credentials_exists : bool;                           (* os.path.exists('credentials.json') *)
  run_local_server : outcome credentials;              (* the authorization flow *)
  write_token : credentials -> outcome unit;           (* writing token.json *)
  build : credentials -> outcome string                (* build('gmail', 'v1', ...) *)
}.

Inductive step : Type :=
| ReadToken
| Refresh
| RunFlow
| WriteToken (creds : credentials)
| Build (creds : credentials).

Definition credentials_not_found : exn :=
  Exn "FileNotFoundError"
      "credentials.json not found. Please download from Google Cloud Console.".

Section WithEnvironment.

Variable env : environment.

(** [if os.path.exists('token.json'): try: creds = ... except: creds = None] *)
Definition load_saved : option credentials * list step :=
  if token_exists env then
    match from_authorized_user_file env with
    | Ok creds => (Some creds, [ReadToken])
    | Raise _ => (None, [ReadToken])
    end
  else (None, []).

(** [if creds and creds.expired and creds.refresh_token: try: creds.refresh(...)
    except: creds = None] *)
Definition refresh_expired (creds : option credentials) : option credentials * list step :=
  match creds with
  | Some c =>
      if expired c && refresh_token c then
        match refresh env c with
        | Ok c' => (Some c', [Refresh])
        | Raise _ => (None, [Refresh])
        end
      else (Some c, [])
  | None => (None, [])
  end.

(** [if not creds: ... raise FileNotFoundError ... creds = flow.run_local_server(port=0)] *)
Definition run_flow (creds : option credentials) : outcome credentials * list step :=
  match creds with
  | Some c => (Ok c, [])
  | None =>
      if credentials_exists env then (run_local_server env, [RunFlow])
      else (Raise credentials_not_found, [])
  end.

(** The body of [if not creds or not creds.valid:], then the [return]:
    refresh or authorize, save the credentials, build the service. *)
Definition renew (creds : option credentials) (steps1 : list step)
  : outcome string * list step :=
  let (creds, steps2) := refresh_expired creds in
  match run_flow creds with
  | (Ok c, steps3) =>
      match write_token env c with
      | Ok _ => (build env c, steps1 ++ steps2 ++ steps3 ++ [WriteToken c; Build c])
      | Raise e => (Raise e, steps1 ++ steps2 ++ steps3 ++ [WriteToken c])
      end
  | (Raise e, steps3) => (Raise e, steps1 ++ steps2 ++ steps3)
  end.

(** [authenticate_gmail]: the result and the steps taken, in order. *)
Definition authenticate_gmail : outcome string * list step :=
  let (creds, steps1) := load_saved in
  match creds with
  | Some c => if valid c then (build env c, steps1 ++ [Build c]) else renew creds steps1
  | None => renew creds steps1
  end.

End WithEnvironment.

(** No usable credentials are left after loading and refreshing. *)
Definition no_saved_credentials (env : environment) : Prop :=
  token_exists env = false
  \/ (exists e, from_authorized_user_file env = Raise e)
  \/ (exists c e,
        from_authorized_user_file env = Ok c
        /\ valid c = false /\ expired c = true /\ refresh_token c = true
        /\ refresh env c = Raise e).

Definition is_write (s : step) : bool :=
  match s with WriteToken _ => true | _ => false end.

(** An example: a saved token without an access token, on a machine
    without [credentials.json]. *)
Definition stale : credentials := Credentials "" false false true.

Definition stale_environment : environment :=
  Environment true (Ok stale) (fun c => Ok c) false
              (Raise (Exn "Error" "no browser")) (fun _ => Ok tt) (fun _ => Ok "gmail").

(** An example: nothing saved, nothing to authorize with. *)
Definition empty_environment : environment :=
  Environment false (Raise (Exn "OSError" "no file")) (fun c => Ok c) false
              (Raise (Exn "Error" "no browser")) (fun _ => Ok tt) (fun _ => Ok "gmail").

End Authenticate.

(** ** Vocabulary of the further properties *)

(** A part that the loop of [fetch_customer_emails] decodes: of type
    [text/plain], with data. *)
Definition plain_with_data (p : part) : bool :=
  String.eqb (mimeType p) "text/plain"
  && match part_data p with Some _ => true | None => false end.

(** [l1] is [l2] with some elements left out. *)
Inductive subseq {A : Type} : list A -> list A -> Prop :=
| subseq_nil : subseq [] []
| subseq_skip x l1 l2 : subseq l1 l2 -> subseq l1 (x :: l2)
| subseq_keep x l1 l2 : subseq l1 l2 -> subseq (x :: l1) (x :: l2).

(** The text has a newline. *)
Fixpoint contains_newline (s : string) : bool :=
  match s with
  | EmptyString => false
  | String c t => is_newline c || contains_newline t
  end.

(** A value fit for a select option: not empty, on one line, without white
    space around it. *)
Definition clean_value (s : string) : Prop :=
  s <> "" /\ contains_newline s = false /\ strip s = s.

(** The answer that the prompt of [classify_issue] asks for. *)
Definition formatted_reply (c p s : string) : string :=
  "Category: " ++ c ++ nl ++ "Priority: " ++ p ++ nl ++ "Summary: " ++ s.

(** Kinds of events, and the number of calls of a kind in a trace. *)
Definition is_chat_event (ev : event) : bool :=
  match ev with OpenAIChat _ => true | _ => false end.

Definition is_create_event (ev : event) : bool :=
  match ev with NotionCreate _ _ => true | _ => false end.

Definition is_query_event (ev : event) : bool :=
  match ev with NotionQuery _ => true | _ => false end.

Definition is_post_event (ev : event) : bool :=
  match ev with SlackPost _ _ => true | _ => false end.

Definition calls (kind : event -> bool) (tr : trace) : nat :=
  List.length (filter kind tr).

(** An event that is not the creation of a record with a category or a
    priority other than the defaults. *)
Definition default_record (ev : event) : Prop :=
  match ev with
  | NotionCreate _ properties =>
      np_root_cause properties = "Other" /\ np_priority properties = "Medium"
  | _ => True
  end.

(** A world with a record store and a webhook but no model credential. *)
Definition no_model_world : World :=
  MkWorld None (Some "secret") (Some "db") (Some "https://hooks.example/T")
          (fun _ h => Ok (1700000000 - 3600 * h)%Z)
          (fun _ => "2024-01-01")
          (fun data => Ok data)
          (fun _ => Ok tt)
          (fun _ _ => Ok ["m1"])
          (fun _ _ => Ok (GmailMessage [Header "Subject" "Printer"] None (Some "jam")))
          (fun _ _ => Ok (Some "Category: Network"))
          (fun _ _ _ => Ok tt)
          (fun _ _ => Ok [])
          (fun _ _ _ => Ok 503%Z).

(** A mailbox that answers the same whatever was called before. *)
Definition mailbox_stable (w : World) : Prop :=
  (forall tr tr' h, time_ago w tr h = time_ago w tr' h)
  /\ (forall tr tr', gmail_auth w tr = gmail_auth w tr')
  /\ (forall tr tr' after, gmail_list w tr after = gmail_list w tr' after)
  /\ (forall tr tr' msg_id, gmail_get w tr msg_id = gmail_get w tr' msg_id).

(** The title and the description of the records that the calls of a trace
    create, in order. *)
Definition created (tr : trace) : list (string * string) :=
  flat_map (fun ev => match ev with
                      | NotionCreate _ properties =>
                          [(np_title properties, np_description properties)]
                      | _ => []
                      end) tr.

(** The title and the description of the record of a message. *)
Definition record_key (e : email) : string * string :=
  (take 100 (or_else (subject e) "No Subject"),
   take 2000 (or_else (body e) "No content")).

(** A store that keeps what it is given: its query returns one row for
    each create call made so far. *)
Definition remembers (w : World) : Prop :=
  forall tr, exists rows,
    notion_query w tr (database_id w) = Ok rows
    /\ List.length rows = List.length (created tr).

(** The rows of a store that was empty and received the create calls of a
    trace. *)
Definition stored_rows (tr : trace) : list page :=
  flat_map (fun ev => match ev with
                      | NotionCreate _ properties =>
                          [row (np_root_cause properties) (np_priority properties)
                               (np_title properties)]
                      | _ => []
                      end) tr.

(** A world with two messages in the mailbox and a store that keeps its
    records. *)
Definition remembering_world : World :=
  MkWorld (Some "sk-test") (Some "secret") (Some "db") (Some "https://hooks.example/T")
          (fun _ h => Ok (1700000000 - 3600 * h)%Z)
          (fun _ => "2024-01-01")
          (fun data => Ok data)
          (fun _ => Ok tt)
          (fun _ _ => Ok ["m1"; "m2"])
          (fun _ msg_id => Ok (GmailMessage [Header "Subject" msg_id] None (Some "jam")))
          (fun _ _ => Ok (Some "Priority: High"))
          (fun _ _ _ => Ok tt)
          (fun tr _ => Ok (stored_rows tr))
          (fun _ _ _ => Ok 200%Z).

(** A computation that gives the same outcome and makes the same calls
    from every trace. *)
Definition uniform {A} (m : M A) : Prop :=
  exists (o : outcome A) (evs : trace), forall tr, m tr = (o, tr ++ evs).

(** ** Computations: basic facts *)

Lemma never_raises_ret {A} (a : A) : never_raises (ret a).
Proof. intros tr. exists a, tr. reflexivity. Qed.

Lemma never_raises_bind {A B} (m : M A) (k : A -> M B) :
  never_raises m -> (forall a, never_raises (k a)) -> never_raises (bind m k).
Proof.
  intros Hm Hk tr. unfold bind.
  destruct (Hm tr) as (a & tr1 & ->). apply Hk.
Qed.

Lemma never_raises_try_except {A} (m : M A) (handler : exn -> M A) :
  (forall e, never_raises (handler e)) -> never_raises (try_except m handler).
Proof.
  intros Hh tr. unfold try_except.
  destruct (m tr) as [[a | e] tr1].
  - exists a, tr1. reflexivity.
  - apply Hh.
Qed.

(** ** The record store: [add_to_notion] *)

Lemma add_to_notion_cases (w : World) (e : email) (c : classification) (tr : trace) :
  add_to_notion w e c tr =
    if store_configured w then
      match notion_create w tr (database_id w) (record_of w tr e c) with
      | Ok _ => (Ok true, tr ++ [NotionCreate (database_id w) (record_of w tr e c)])
      | Raise _ => (Ok false, tr ++ [NotionCreate (database_id w) (record_of w tr e c)])
      end
    else (Ok false, tr).
Proof.
  unfold add_to_notion, store_configured, database_id.
  destruct (notion w); [ destruct (env_set (NOTION_DATABASE_ID w)) | ]; cbn; try reflexivity.
  unfold try_except, bind, call, read, ret, record_of; cbn.
  destruct (notion_create w tr _ _); reflexivity.
Qed.

Lemma add_to_notion_total (w : World) (e : email) (c : classification) :
  never_raises (add_to_notion w e c).
Proof.
  intros tr. rewrite add_to_notion_cases.
  destruct (store_configured w); [ destruct (notion_create w tr _ _) | ]; eauto.
Qed.

(** C8. For every message and classification and whatever the store does,
    [add_to_notion] raises nothing: it returns a boolean, which is [false]
    when the store is not configured (and then nothing is called) and
    [false] when the create call raises. *)
Theorem add_to_notion_never_raises
  (w : World) (e : email) (c : classification) (tr : trace) :
  exists (b : bool) (tr' : trace),
    add_to_notion w e c tr = (Ok b, tr')
    /\ (store_configured w = false -> b = false /\ tr' = tr)
    /\ (forall err,
          store_configured w = true ->
          notion_create w tr (database_id w) (record_of w tr e c) = Raise err ->
          b = false).
Proof.
  rewrite add_to_notion_cases.
  destruct (store_configured w) eqn:Hconf.
  - destruct (notion_create w tr _ _) as [u | err0] eqn:Hcreate.
    + exists true. eexists. split; [ reflexivity | ].
      split; [ discriminate | ]. intros err _ H. discriminate H.
    + exists false. eexists. split; [ reflexivity | ].
      split; [ discriminate | ]. reflexivity.
  - exists false, tr. split; [ reflexivity | ].
    split; [ auto | ]. discriminate.
Qed.

(** ** The notifier: [send_slack_digest] *)

(** The message rendered from a summary. *)
Lemma send_slack_digest_cases (w : World) (s : notion_summary) (tr : trace) :
  send_slack_digest w s tr =
    if webhook_configured w then
      match s with
      | SummaryError _ => (Ok false, tr)
      | Summary c =>
          let message :=
            Digest (total c) (bullets (by_category c)) (bullets (by_priority c))
                   (match high_priority c with
                    | [] => [NoHighItems]
                    | items => map HighItem (firstn 5 items)
                    end) in
          (Ok (match slack_post w tr (webhook_url w) message with
               | Ok status_code => (status_code =? 200)%Z
               | Raise _ => false
               end),
           tr ++ [SlackPost (webhook_url w) message])
      end
    else (Ok false, tr).
Proof.
  unfold send_slack_digest, webhook_configured, webhook_url.
  destruct (env_set (SLACK_WEBHOOK_URL w)); cbn; [ | reflexivity ].
  destruct s as [msg | c]; [ reflexivity | ].
  unfold try_except, bind, call, ret.
  destruct (slack_post w tr _ _) as [code | e]; [ | reflexivity ].
  destruct (code =? 200)%Z; reflexivity.
Qed.

Lemma send_slack_digest_total (w : World) (s : notion_summary) :
  never_raises (send_slack_digest w s).
Proof.
  intros tr. rewrite send_slack_digest_cases.
  destruct (webhook_configured w); [ destruct s | ]; eauto.
Qed.

(** C9. [send_slack_digest] returns [false] and posts nothing when no
    webhook is configured or when the summary carries an error; otherwise
    it posts once, and returns [true] exactly when the status of the
    response is 200: another status or an exception of the transport gives
    [false], and nothing is raised. *)
Theorem send_slack_digest_result (w : World) (s : notion_summary) (tr : trace) :
  exists (b : bool) (tr' : trace),
    send_slack_digest w s tr = (Ok b, tr')
    /\ (webhook_configured w = false \/ (exists msg, s = SummaryError msg) ->
        b = false /\ tr' = tr)
    /\ (webhook_configured w = true ->
        forall c, s = Summary c ->
        exists message,
          tr' = tr ++ [SlackPost (webhook_url w) message]
          /\ (b = true <-> slack_post w tr (webhook_url w) message = Ok 200%Z)
          /\ (forall err, slack_post w tr (webhook_url w) message = Raise err -> b = false)).
Proof.
  rewrite send_slack_digest_cases.
  destruct (webhook_configured w) eqn:Hhook.
  - destruct s as [msg | c].
    + exists false, tr. split; [ reflexivity | ]. split; [ auto | ].
      intros _ c Hc. discriminate Hc.
    + eexists. eexists. split; [ reflexivity | ]. split.
      * intros [H | [msg H]]; discriminate H.
      * intros _ c' Hc. injection Hc as <-.
        eexists. split; [ reflexivity | ]. split.
        -- destruct (slack_post w tr _ _) as [code | e].
           ++ split.
              ** intros H. apply Z.eqb_eq in H. now subst code.
              ** intros H. injection H as ->. reflexivity.
           ++ split; discriminate.
        -- intros err ->. reflexivity.
  - exists false, tr. split; [ reflexivity | ]. split; [ auto | ].
    discriminate.
Qed.

(** ** The summary: [get_notion_summary] *)

Section Dict.

Lemma dict_get_set (d : dict) (k k' : string) (v default : nat) :
  dict_get (dict_set d k v) k' default =
    if String.eqb k k' then v else dict_get d k' default.
Proof.
  induction d as [ | [k0 v0] d IH ]; cbn.
  - destruct (String.eqb k k'); reflexivity.
  - destruct (String.eqb k0 k) eqn:H0; cbn.
    + apply String.eqb_eq in H0. subst k0.
      destruct (String.eqb k k'); reflexivity.
    + destruct (String.eqb k0 k') eqn:H1.
      * apply String.eqb_eq in H1. subst k0.
        rewrite String.eqb_sym, H0. reflexivity.
      * exact IH.
Qed.

Lemma dict_sum_incr (d : dict) (k : string) :
  dict_sum (dict_set d k (dict_get d k 0 + 1)) = dict_sum d + 1.
Proof.
  induction d as [ | [k0 v0] d IH ]; cbn.
  - reflexivity.
  - destruct (String.eqb k0 k); cbn.
    + lia.
    + fold (dict_sum (dict_set d k (dict_get d k 0 + 1))). rewrite IH.
      fold (dict_sum d). lia.
Qed.

End Dict.

Lemma count_page_parts (s : counts) (p : page) :
  total (count_page s p) = total s
  /\ by_category (count_page s p) = add_count (by_category s) (row_category p)
  /\ by_priority (count_page s p) = add_count (by_priority s) (row_priority p)
  /\ high_priority (count_page s p) = add_high (high_priority s) p.
Proof.
  unfold count_page, add_high, row_category, row_priority, row_title, is_value.
  destruct p as [rc pr ta]; cbn.
  destruct rc as [rc | ], pr as [pr | ]; cbn;
    try (destruct (String.eqb _ "High"); [ destruct ta | ]; cbn);
    rewrite ?app_nil_r; auto.
Qed.

Lemma fold_count_page_parts (rows : list page) (s : counts) :
  total (fold_left count_page rows s) = total s
  /\ by_category (fold_left count_page rows s)
     = fold_left add_count (map row_category rows) (by_category s)
  /\ by_priority (fold_left count_page rows s)
     = fold_left add_count (map row_priority rows) (by_priority s)
  /\ high_priority (fold_left count_page rows s)
     = high_priority s ++ high_titles rows.
Proof.
  revert s. induction rows as [ | p rows IH ]; intros s; cbn.
  - rewrite app_nil_r. auto.
  - destruct (IH (count_page s p)) as (Ht & Hc & Hp & Hh).
    destruct (count_page_parts s p) as (Ht' & Hc' & Hp' & Hh').
    rewrite Ht, Hc, Hp, Hh, Ht', Hc', Hp', Hh'.
    unfold add_high, high_titles. cbn. rewrite <- app_assoc. auto.
Qed.

Lemma fold_add_count_get (keys : list (option string)) (d : dict) (c : string) :
  dict_get (fold_left add_count keys d) c 0
  = dict_get d c 0 + List.length (filter (is_value c) keys).
Proof.
  revert d. induction keys as [ | k keys IH ]; intros d; cbn.
  - lia.
  - rewrite IH. destruct k as [k | ]; cbn.
    + rewrite dict_get_set.
      destruct (String.eqb k c) eqn:Hk; cbn; [ | lia ].
      apply String.eqb_eq in Hk. subst k. lia.
    + reflexivity.
Qed.

Lemma fold_add_count_sum (keys : list (option string)) (d : dict) :
  dict_sum (fold_left add_count keys d)
  = dict_sum d + List.length (filter (fun k => match k with Some _ => true | None => false end) keys).
Proof.
  revert d. induction keys as [ | k keys IH ]; intros d;
    cbn [fold_left filter List.length].
  - lia.
  - rewrite IH. destruct k as [k | ]; cbn [add_count List.length].
    + rewrite dict_sum_incr. lia.
    + reflexivity.
Qed.

Lemma filter_map_length {A B} (f : A -> B) (g : B -> bool) (l : list A) :
  List.length (filter g (map f l)) = List.length (filter (fun a => g (f a)) l).
Proof.
  induction l as [ | a l IH ]; cbn; [ reflexivity | ].
  destruct (g (f a)); cbn; rewrite IH; reflexivity.
Qed.

Lemma filter_length_le {A} (g : A -> bool) (l : list A) :
  List.length (filter g l) <= List.length l.
Proof.
  induction l as [ | a l IH ]; cbn; [ lia | ].
  destruct (g a); cbn; lia.
Qed.

(** The summary of a list of rows, part by part. *)
Lemma summarize_parts (rows : list page) :
  total (summarize rows) = List.length rows
  /\ (forall c, dict_get (by_category (summarize rows)) c 0 = count_category rows c)
  /\ (forall c, dict_get (by_priority (summarize rows)) c 0 = count_priority rows c)
  /\ high_priority (summarize rows) = high_titles rows.
Proof.
  unfold summarize.
  destruct (fold_count_page_parts rows (Counts (List.length rows) [] [] []))
    as (Ht & Hc & Hp & Hh).
  rewrite Ht, Hc, Hp, Hh. cbn.
  repeat split; intros;
    rewrite ?fold_add_count_get, ?filter_map_length; reflexivity.
Qed.

Lemma get_notion_summary_cases (w : World) (tr : trace) :
  get_notion_summary w tr =
    if store_configured w then
      (Ok (match notion_query w tr (database_id w) with
           | Ok rows => Summary (summarize rows)
           | Raise e => SummaryError (exn_str e)
           end),
       tr ++ [NotionQuery (database_id w)])
    else (Ok (SummaryError "Notion not configured"), tr).
Proof.
  unfold get_notion_summary, store_configured, database_id.
  destruct (notion w); [ destruct (env_set (NOTION_DATABASE_ID w)) | ]; cbn; try reflexivity.
  unfold try_except, bind, call, ret, summarize.
  destruct (notion_query w tr _); reflexivity.
Qed.

Lemma get_notion_summary_total (w : World) : never_raises (get_notion_summary w).
Proof.
  intros tr. rewrite get_notion_summary_cases.
  destruct (store_configured w); eauto.
Qed.

(** The summary of three rows. *)
Example summarize_three_rows :
  summarize three_rows
  = Counts 3 [("Hardware", 2); ("Network", 1)] [("High", 2); ("Medium", 1)]
           ["printer"; "laptop"].
Proof. reflexivity. Qed.

(** C4, as the specification states it, fails on six rows of priority
    High: the summary lists the six titles, not the first five. *)
Lemma summary_high_priority_not_capped :
  exists s tr',
    get_notion_summary (example_world (Ok None) (Ok six_high_rows)) [] = (Ok (Summary s), tr')
    /\ List.length (high_priority s) = 6
    /\ ~ summary_as_specified six_high_rows s.
Proof.
  exists (summarize six_high_rows), [NotionQuery "db"].
  split; [ reflexivity | ]. split; [ reflexivity | ].
  intros (_ & _ & _ & H). discriminate H.
Qed.

(** C4, amended. For the N rows that the store query returns, the summary
    has total N, counts for each category and for each priority the rows
    that have it, and lists the titles of all the rows of priority High, in
    the order of the rows (a row without a title gives none); the list is
    not capped in the summary: [send_slack_digest] shows its first five
    titles. *)
Theorem get_notion_summary_counts (w : World) (tr : trace) (rows : list page) :
  store_configured w = true ->
  notion_query w tr (database_id w) = Ok rows ->
  exists s,
    get_notion_summary w tr = (Ok (Summary s), tr ++ [NotionQuery (database_id w)])
    /\ total s = List.length rows
    /\ (forall c, dict_get (by_category s) c 0 = count_category rows c)
    /\ (forall c, dict_get (by_priority s) c 0 = count_priority rows c)
    /\ high_priority s = high_titles rows
    /\ (forall tr2,
          webhook_configured w = true ->
          exists b message,
            send_slack_digest w (Summary s) tr2
              = (Ok b, tr2 ++ [SlackPost (webhook_url w) message])
            /\ high_priority_text message
               = match high_titles rows with
                 | [] => [NoHighItems]
                 | _ => map HighItem (firstn 5 (high_titles rows))
                 end).
Proof.
  intros Hconf Hquery. exists (summarize rows).
  rewrite get_notion_summary_cases, Hconf, Hquery.
  destruct (summarize_parts rows) as (Ht & Hc & Hp & Hh).
  repeat (split; [ assumption || reflexivity | ]).
  intros tr2 Hhook. rewrite send_slack_digest_cases, Hhook. cbn zeta.
  eexists. eexists. split; [ reflexivity | ].
  cbn [high_priority_text]. rewrite Hh.
  destruct (high_titles rows); reflexivity.
Qed.

Lemma get_notion_summary_counts_witness :
  exists s,
    get_notion_summary (example_world (Ok None) (Ok six_high_rows)) []
      = (Ok (Summary s), [NotionQuery "db"])
    /\ total s = 6
    /\ high_priority s = ["t1"; "t2"; "t3"; "t4"; "t5"; "t6"].
Proof.
  destruct (get_notion_summary_counts (example_world (Ok None) (Ok six_high_rows))
              [] six_high_rows eq_refl eq_refl)
    as (s & Hs & Ht & _ & _ & Hh & _).
  exists s. split; [ exact Hs | ]. split; [ exact Ht | exact Hh ].
Defined.

Lemma summarize_by_category (rows : list page) :
  by_category (summarize rows) = fold_left add_count (map row_category rows) [].
Proof.
  unfold summarize.
  destruct (fold_count_page_parts rows (Counts (List.length rows) [] [] []))
    as (_ & Hc & _). exact Hc.
Qed.

Lemma summarize_by_priority (rows : list page) :
  by_priority (summarize rows) = fold_left add_count (map row_priority rows) [].
Proof.
  unfold summarize.
  destruct (fold_count_page_parts rows (Counts (List.length rows) [] [] []))
    as (_ & _ & Hp & _). exact Hp.
Qed.

Lemma fold_add_count_skip (before after : list (option string)) (d : dict) :
  fold_left add_count (before ++ None :: after) d
  = fold_left add_count (before ++ after) d.
Proof. rewrite !fold_left_app. reflexivity. Qed.

Lemma high_titles_skip (before after : list page) (p : page) :
  priority_select p = None ->
  high_titles (before ++ p :: after) = high_titles (before ++ after).
Proof.
  intros Hp. unfold high_titles. rewrite !flat_map_app. cbn.
  unfold row_priority. rewrite Hp. reflexivity.
Qed.

(** C10. In a summary, the total counts every row that the query returned,
    but a row without a category select adds to no count of [by_category],
    and a row without a priority select adds to no count of [by_priority]
    and to no title of [high_priority]: the summary has these parts as if
    the row were not there.  So the counts of [by_category], and those of
    [by_priority], sum to at most the total. *)
Theorem summary_rows_without_select
  (w : World) (tr tr' : trace) (s : counts) :
  get_notion_summary w tr = (Ok (Summary s), tr') ->
  exists rows,
    notion_query w tr (database_id w) = Ok rows
    /\ total s = List.length rows
    /\ dict_sum (by_category s) <= total s
    /\ dict_sum (by_priority s) <= total s
    /\ (forall before p after,
          rows = before ++ p :: after ->
          root_cause_select p = None ->
          by_category s = by_category (summarize (before ++ after)))
    /\ (forall before p after,
          rows = before ++ p :: after ->
          priority_select p = None ->
          by_priority s = by_priority (summarize (before ++ after))
          /\ high_priority s = high_priority (summarize (before ++ after))).
Proof.
  rewrite get_notion_summary_cases.
  destruct (store_configured w); [ | discriminate ].
  destruct (notion_query w tr (database_id w)) as [rows | e]; [ | discriminate ].
  intros H. injection H as <- _. exists rows.
  destruct (summarize_parts rows) as (Ht & _ & _ & Hh).
  split; [ reflexivity | ]. split; [ exact Ht | ].
  rewrite Ht, summarize_by_category, summarize_by_priority, !fold_add_count_sum.
  cbn [dict_sum fold_right]. rewrite !filter_map_length.
  split; [ apply filter_length_le | ]. split; [ apply filter_length_le | ].
  split.
  - intros before p after -> Hp.
    rewrite summarize_by_category, !map_app. cbn [map].
    unfold row_category at 2. rewrite Hp.
    rewrite fold_add_count_skip, <- map_app. reflexivity.
  - intros before p after -> Hp. split.
    + rewrite summarize_by_priority, !map_app. cbn [map].
      unfold row_priority at 2. rewrite Hp.
      rewrite fold_add_count_skip, <- map_app. reflexivity.
    + destruct (summarize_parts (before ++ after)) as (_ & _ & _ & Hh').
      rewrite Hh, Hh'. apply high_titles_skip. exact Hp.
Qed.

Lemma summary_rows_without_select_witness :
  exists rows,
    notion_query (example_world (Ok None) (Ok rows_with_gaps)) [] "db" = Ok rows
    /\ total (summarize rows_with_gaps) = List.length rows
    /\ dict_sum (by_category (summarize rows_with_gaps)) <= 3
    /\ dict_sum (by_priority (summarize rows_with_gaps)) <= 3.
Proof.
  destruct (summary_rows_without_select
              (example_world (Ok None) (Ok rows_with_gaps)) [] [NotionQuery "db"]
              (summarize rows_with_gaps) eq_refl)
    as (rows & Hq & Ht & Hc & Hp & _).
  exists rows. repeat split; assumption.
Defined.

(** ** The classifier: [classify_issue] *)

Section Strings.

Lemma append_assoc (a b c : string) : ((a ++ b) ++ c)%string = (a ++ (b ++ c))%string.
Proof. induction a as [ | x a IH ]; cbn; [ reflexivity | now rewrite IH ]. Qed.

Lemma append_empty_r (a : string) : (a ++ "")%string = a.
Proof. induction a as [ | x a IH ]; cbn; [ reflexivity | now rewrite IH ]. Qed.








End Strings.

Lemma classify_issue_cases (w : World) (subject body : string) (tr : trace) :
  classify_issue w subject body tr =
    if client w then
      (Ok (match openai_chat w tr (prompt subject body) with
           | Ok (Some content) =>
               Classification (field "Category:" "Other" (strip content))
                              (field "Priority:" "Medium" (strip content))
                              (field "Summary:" subject (strip content))
           | _ => fallback subject
           end),
       tr ++ [OpenAIChat (prompt subject body)])
    else (Ok (fallback subject), tr).
Proof.
  unfold classify_issue. destruct (client w); cbn [negb]; [ | reflexivity ].
  unfold try_except, bind, call, ret, raise.
  destruct (openai_chat w tr _) as [[content | ] | e]; reflexivity.
Qed.

Lemma classify_issue_total (w : World) (subject body : string) :
  never_raises (classify_issue w subject body).
Proof.
  intros tr. rewrite classify_issue_cases. destruct (client w); eauto.
Qed.

(** C1, as the specification states it, fails on an answer of the model
    outside the enumerated options: the category and the priority are the
    text of the answer, and [add_to_notion] writes them to the record. *)
Lemma classification_free_text_propagated :
  exists c tr1 tr2,
    classify_issue (example_world (Ok (Some free_text_reply)) (Ok [])) "Printer" "jam" []
      = (Ok c, tr1)
    /\ category c = "Hardware (physical equipment problems)"
    /\ priority c = "Critical"
    /\ ~ In (category c) categories
    /\ ~ In (priority c) priorities
    /\ add_to_notion (example_world (Ok (Some free_text_reply)) (Ok [])) printer_email c tr1
       = (Ok true, tr2)
    /\ In (NotionCreate "db"
             (NotionProperties "Printer" "jam" "Hardware (physical equipment problems)"
                               "Critical" "New" "2024-01-01"))
          tr2.
Proof.
  exists (Classification "Hardware (physical equipment problems)" "Critical" "Printer").
  exists [OpenAIChat (prompt "Printer" "jam")].
  exists [OpenAIChat (prompt "Printer" "jam");
          NotionCreate "db"
            (NotionProperties "Printer" "jam" "Hardware (physical equipment problems)"
                              "Critical" "New" "2024-01-01")].
  split; [ reflexivity | ]. split; [ reflexivity | ]. split; [ reflexivity | ].
  split; [ cbn; intuition discriminate | ].
  split; [ cbn; intuition discriminate | ].
  split; [ reflexivity | ].
  right. left. reflexivity.
Qed.

(** ** The mail source: [fetch_customer_emails] *)

Lemma fetch_loop_step (w : World) (msg : string) (rest : list string)
      (emails : list email) (tr : trace) :
  fetch_loop w (msg :: rest) emails tr =
    match process_message w msg tr with
    | (Ok e, tr1) => fetch_loop w rest (emails ++ [e]) tr1
    | (Raise _, tr1) => fetch_loop w rest emails tr1
    end.
Proof.
  cbn [fetch_loop]. unfold bind at 1. unfold try_except, bind at 1.
  destruct (process_message w msg tr) as [[e | err] tr1]; reflexivity.
Qed.

Lemma fetch_loop_extracted (w : World) (messages : list string) :
  forall (emails : list email) (tr : trace),
  exists kept tr',
    fetch_loop w messages emails tr = (Ok (emails ++ kept), tr')
    /\ extracted w messages tr kept tr'.
Proof.
  induction messages as [ | msg rest IH ]; intros emails tr.
  - exists [], tr. cbn. rewrite app_nil_r. split; [ reflexivity | constructor ].
  - rewrite fetch_loop_step.
    destruct (process_message w msg tr) as [[e | err] tr1] eqn:Hmsg.
    + destruct (IH (emails ++ [e]) tr1) as (kept & tr' & Hloop & Hkept).
      exists (e :: kept), tr'. rewrite Hloop, <- app_assoc.
      split; [ reflexivity | ]. eapply extracted_keep; eassumption.
    + destruct (IH emails tr1) as (kept & tr' & Hloop & Hkept).
      exists kept, tr'. split; [ exact Hloop | ].
      eapply extracted_skip; eassumption.
Qed.

Lemma fetch_customer_emails_cases (w : World) (hours_back : Z) (tr : trace) :
  fetch_customer_emails w hours_back tr =
    match time_ago w tr hours_back with
    | Raise _ => (Ok [], tr)
    | Ok after =>
        match gmail_list w tr after with
        | Raise _ => (Ok [], tr ++ [GmailList after])
        | Ok messages =>
            match fetch_loop w messages [] (tr ++ [GmailList after]) with
            | (Ok emails, tr') => (Ok emails, tr')
            | (Raise _, tr') => (Ok [], tr')
            end
        end
    end.
Proof.
  unfold fetch_customer_emails, try_except, bind, call, ret.
  destruct (time_ago w tr hours_back) as [after | e]; [ | reflexivity ].
  destruct (gmail_list w tr after) as [messages | e]; reflexivity.
Qed.

Lemma fetch_customer_emails_total (w : World) (hours_back : Z) :
  never_raises (fetch_customer_emails w hours_back).
Proof.
  intros tr. rewrite fetch_customer_emails_cases.
  destruct (time_ago w tr hours_back) as [after | e]; [ | eauto ].
  destruct (gmail_list w tr after) as [messages | e]; [ | eauto ].
  destruct (fetch_loop_extracted w messages [] (tr ++ [GmailList after]))
    as (kept & tr' & Hloop & _).
  rewrite Hloop. eauto.
Qed.

(** C7. [fetch_customer_emails] raises nothing.  When the retrieval itself
    fails (the cutoff cannot be computed, or the list call raises) it
    returns the empty list; otherwise it returns the messages that could be
    processed, in order: a message whose processing raises is the only one
    left out, and the loop goes on with the next. *)
Theorem fetch_customer_emails_never_raises (w : World) (hours_back : Z) (tr : trace) :
  exists emails tr',
    fetch_customer_emails w hours_back tr = (Ok emails, tr')
    /\ (forall err, time_ago w tr hours_back = Raise err -> emails = [])
    /\ (forall after err,
          time_ago w tr hours_back = Ok after ->
          gmail_list w tr after = Raise err -> emails = [])
    /\ (forall after messages,
          time_ago w tr hours_back = Ok after ->
          gmail_list w tr after = Ok messages ->
          extracted w messages (tr ++ [GmailList after]) emails tr').
Proof.
  rewrite fetch_customer_emails_cases.
  destruct (time_ago w tr hours_back) as [after | e] eqn:Htime.
  - destruct (gmail_list w tr after) as [messages | e] eqn:Hlist.
    + destruct (fetch_loop_extracted w messages [] (tr ++ [GmailList after]))
        as (kept & tr' & Hloop & Hkept).
      rewrite Hloop. cbn [app].
      exists kept, tr'. split; [ reflexivity | ].
      split; [ discriminate | ].
      split; [ intros after' err Ha; injection Ha as <-; congruence | ].
      intros after' messages' Ha Hm.
      injection Ha as <-. rewrite Hlist in Hm. injection Hm as <-. exact Hkept.
    + exists [], (tr ++ [GmailList after]). split; [ reflexivity | ].
      split; [ reflexivity | ]. split; [ reflexivity | ].
      intros after' messages' Ha Hm. injection Ha as <-. congruence.
  - exists [], tr. split; [ reflexivity | ].
    split; [ reflexivity | ]. split; [ reflexivity | ]. discriminate.
Qed.

(** The first message fails, the second is kept: its plain-text part is
    its body. *)
Example fetch_skips_failed_message :
  fetch_customer_emails flaky_mail_world 24 []
  = (Ok [Email "m2" "VPN" "ann@example.org" "" "down"],
     [GmailList 1699913600; GmailGet "m1"; GmailGet "m2"]).
Proof. reflexivity. Qed.

(** ** The pipeline: [run_full_pipeline] *)

Lemma classify_loop_step (w : World) (e : email) (rest : list email)
      (processed : nat) (tr : trace) :
  exists (added : bool) (tr1 : trace),
    classify_loop w (e :: rest) processed tr
    = classify_loop w rest (if added then processed + 1 else processed) tr1.
Proof.
  cbn [classify_loop]. unfold bind at 1. unfold try_except, bind at 1.
  destruct (classify_issue_total w (subject e) (body e) tr) as (c & tr1 & ->).
  unfold bind at 1.
  destruct (add_to_notion_total w e c tr1) as (added & tr2 & ->).
  exists added, tr2. destruct added; reflexivity.
Qed.

Lemma classify_loop_bound (w : World) (emails : list email) :
  forall (processed : nat) (tr : trace),
  exists n tr',
    classify_loop w emails processed tr = (Ok n, tr')
    /\ processed <= n <= processed + List.length emails.
Proof.
  induction emails as [ | e rest IH ]; intros processed tr.
  - exists processed, tr. cbn. split; [ reflexivity | lia ].
  - destruct (classify_loop_step w e rest processed tr) as (added & tr1 & ->).
    destruct (IH (if added then processed + 1 else processed) tr1)
      as (n & tr' & -> & Hn).
    exists n, tr'. split; [ reflexivity | ].
    cbn [List.length]. destruct added; lia.
Qed.

Lemma digest_step_total (w : World) : never_raises (digest_step w).
Proof.
  unfold digest_step. apply never_raises_try_except.
  intros e. apply never_raises_ret.
Qed.

(** What [run_full_pipeline] does once the messages are fetched. *)
Lemma run_full_pipeline_fetched
      (w : World) (hours_back : Z) (tr tr1 : trace) (emails : list email) :
  fetch_step w hours_back tr = (Ok emails, tr1) ->
  exists processed sent tr',
    run_full_pipeline w hours_back tr
    = (Ok (MkRunResult (List.length emails) processed sent None), tr')
    /\ processed <= List.length emails.
Proof.
  intros Hfetch. unfold run_full_pipeline. rewrite Hfetch.
  unfold bind at 1.
  destruct (classify_loop_bound w emails 0 tr1) as (n & tr2 & -> & Hn).
  unfold bind at 1.
  destruct (digest_step_total w tr2) as (sent & tr3 & ->).
  exists n, sent, tr3. split; [ reflexivity | lia ].
Qed.

(** Step 1 raises only when [authenticate_gmail] does. *)
Lemma fetch_step_raises (w : World) (hours_back : Z) (tr tr1 : trace) (e : exn) :
  fetch_step w hours_back tr = (Raise e, tr1) ->
  gmail_auth w tr = Raise e /\ tr1 = tr ++ [GmailAuth].
Proof.
  unfold fetch_step, authenticate_gmail, bind, call.
  destruct (gmail_auth w tr) as [u | e0].
  - destruct (fetch_customer_emails_total w hours_back (tr ++ [GmailAuth]))
      as (emails & tr' & ->).
    discriminate.
  - intros H. injection H as -> <-. split; reflexivity.
Qed.

(** C2. For every [hours_back], whatever the services answer and whatever
    happens in the steps on each message and in the digest step,
    [run_full_pipeline] returns a result with the counts of the messages
    found and processed and whether the digest was sent; it raises
    nothing. *)
Theorem run_full_pipeline_never_raises (w : World) (hours_back : Z) (tr : trace) :
  exists r tr',
    run_full_pipeline w hours_back tr = (Ok r, tr')
    /\ emails_processed r <= emails_found r.
Proof.
  destruct (fetch_step w hours_back tr) as [[emails | e] tr1] eqn:Hfetch.
  - destruct (run_full_pipeline_fetched w hours_back tr tr1 emails Hfetch)
      as (processed & sent & tr' & -> & Hle).
    eexists. eexists. split; [ reflexivity | exact Hle ].
  - unfold run_full_pipeline. rewrite Hfetch.
    eexists. eexists. split; [ reflexivity | ]. cbn. lia.
Qed.

(** C3. When the step that authenticates and fetches raises,
    [run_full_pipeline] returns at once a result with no message found, none
    processed, no digest sent and the error; the only call made is the
    authentication: nothing is classified, stored, summarized or posted. *)
Theorem run_full_pipeline_fetch_failure
  (w : World) (hours_back : Z) (tr tr1 : trace) (e : exn) :
  fetch_step w hours_back tr = (Raise e, tr1) ->
  run_full_pipeline w hours_back tr
    = (Ok (MkRunResult 0 0 false (Some (exn_str e))), tr1)
  /\ tr1 = tr ++ [GmailAuth].
Proof.
  intros Hfetch. split.
  - unfold run_full_pipeline. rewrite Hfetch. reflexivity.
  - exact (proj2 (fetch_step_raises w hours_back tr tr1 e Hfetch)).
Qed.

Lemma run_full_pipeline_fetch_failure_witness :
  run_full_pipeline no_credentials_world 24 []
    = (Ok (MkRunResult 0 0 false (Some (exn_str missing_credentials))), [GmailAuth]).
Proof.
  exact (proj1 (run_full_pipeline_fetch_failure no_credentials_world 24 [] [GmailAuth]
                  missing_credentials eq_refl)).
Defined.

(** ** The boundary: [run_pipeline] *)

(** The validation of [run_pipeline] refuses a value exactly when it is
    not a number of the interval, NaN apart. *)
Lemma validation_refuses (v : App.json) :
  v <> App.JFloat FNan ->
  (negb (App.is_int_or_float v) || App.ltb v 1 || App.gtb v 168 = true
   <-> ~ in_range v).
Proof.
  intros Hnan.
  destruct v as [z | [ | negative | m e] | b | ]; cbn -[Z.mul Z.pow Z.ltb].
  - rewrite orb_true_iff, Z.ltb_lt, Z.ltb_lt. lia.
  - congruence.
  - destruct negative; cbn; tauto.
  - destruct (0 <=? e)%Z; rewrite orb_true_iff, Z.ltb_lt, Z.ltb_lt; lia.
  - destruct b; cbn; intuition (try discriminate; try lia).
  - tauto.
Qed.

(** Every value outside the interval, NaN apart, is refused with status
    400 before any call. *)
Lemma run_pipeline_rejects_out_of_range (w : World) (v : App.json) (tr : trace) :
  v <> App.JFloat FNan ->
  ~ in_range v ->
  App.run_pipeline w (Some v) tr
  = (Ok (App.Response 400 false (Some "Hours must be between 1 and 168") None), tr).
Proof.
  intros Hnan Hout. apply (validation_refuses v Hnan) in Hout.
  unfold App.run_pipeline, try_except. rewrite Hout. reflexivity.
Qed.

(** C6, at NaN. The value is not in the interval, yet it passes the
    validation: both comparisons are false.  The conversion [int(hours)]
    then raises, and the request ends with status 500 and the message of a
    failed pipeline, not with the validation error; no call was made. *)
Theorem run_pipeline_nan_not_rejected (w : World) (tr : trace) :
  ~ in_range (App.JFloat FNan)
  /\ App.run_pipeline w (Some (App.JFloat FNan)) tr
     = (Ok (App.Response 500 false
              (Some "Pipeline failed: cannot convert float NaN to integer") None),
        tr).
Proof.
  split; [ intros H; exact H | reflexivity ].
Qed.

(** ** Further properties of the mail source *)

Lemma take_length (n : nat) (s : string) : String.length (take n s) <= n.
Proof.
  revert s. induction n as [ | n IH ]; intros [ | c s ]; cbn; try lia.
  specialize (IH s). lia.
Qed.

Lemma process_message_cases (w : World) (msg_id : string) (tr : trace) :
  process_message w msg_id tr =
    (match gmail_get w tr msg_id with
     | Ok message =>
         match extract_body w message with
         | Ok body =>
             Ok (Email msg_id
                       (header_value (headers message) "subject" "No Subject")
                       (header_value (headers message) "from" "Unknown")
                       (header_value (headers message) "date" "")
                       (take 500 body))
         | Raise e => Raise e
         end
     | Raise e => Raise e
     end,
     tr ++ [GmailGet msg_id]).
Proof.
  unfold process_message, bind, call, lift, ret.
  destruct (gmail_get w tr msg_id) as [message | e]; [ | reflexivity ].
  destruct (extract_body w message); reflexivity.
Qed.

Lemma fetch_loop_calls (w : World) (messages : list string) :
  forall (emails : list email) (tr : trace),
  exists kept,
    fetch_loop w messages emails tr
      = (Ok (emails ++ kept), tr ++ map GmailGet messages)
    /\ subseq (map id kept) messages
    /\ Forall (fun e => String.length (body e) <= 500) kept.
Proof.
  induction messages as [ | msg rest IH ]; intros emails tr.
  - exists []. cbn. rewrite !app_nil_r. repeat split; constructor.
  - rewrite fetch_loop_step, process_message_cases. cbn [map].
    destruct (gmail_get w tr msg) as [message | e].
    + destruct (extract_body w message) as [text | e].
      * destruct (IH (emails ++ [Email msg
                   (header_value (headers message) "subject" "No Subject")
                   (header_value (headers message) "from" "Unknown")
                   (header_value (headers message) "date" "")
                   (take 500 text)]) (tr ++ [GmailGet msg]))
          as (kept & Hloop & Hsub & Hlen).
        eexists (_ :: kept). rewrite Hloop, <- !app_assoc. cbn [app].
        split; [ reflexivity | ]. split.
        -- cbn [map id]. now apply subseq_keep.
        -- constructor; [ cbn [body]; apply take_length | exact Hlen ].
      * destruct (IH emails (tr ++ [GmailGet msg])) as (kept & Hloop & Hsub & Hlen).
        exists kept. rewrite Hloop, <- app_assoc.
        split; [ reflexivity | ]. split; [ now apply subseq_skip | exact Hlen ].
    + destruct (IH emails (tr ++ [GmailGet msg])) as (kept & Hloop & Hsub & Hlen).
      exists kept. rewrite Hloop, <- app_assoc.
      split; [ reflexivity | ]. split; [ now apply subseq_skip | exact Hlen ].
Qed.

(** X1. When the list call succeeds, [fetch_customer_emails] makes one list
    call and then retrieves each listed message once, in order, whether or
    not earlier messages failed.  The messages it returns keep the order of
    the list, carry the identifiers of the list, and have bodies of at most
    500 characters. *)
Theorem fetch_customer_emails_calls
  (w : World) (hours_back : Z) (tr : trace) (after : Z) (messages : list string) :
  time_ago w tr hours_back = Ok after ->
  gmail_list w tr after = Ok messages ->
  exists emails,
    fetch_customer_emails w hours_back tr
      = (Ok emails, tr ++ GmailList after :: map GmailGet messages)
    /\ subseq (map id emails) messages
    /\ Forall (fun e => String.length (body e) <= 500) emails.
Proof.
  intros Htime Hlist.
  rewrite fetch_customer_emails_cases, Htime, Hlist.
  destruct (fetch_loop_calls w messages [] (tr ++ [GmailList after]))
    as (kept & Hloop & Hsub & Hlen).
  rewrite Hloop, <- app_assoc. cbn [app].
  exists kept. auto.
Qed.

Lemma fetch_customer_emails_calls_witness :
  exists emails,
    fetch_customer_emails flaky_mail_world 24 []
      = (Ok emails, [GmailList 1699913600; GmailGet "m1"; GmailGet "m2"])
    /\ subseq (map id emails) ["m1"; "m2"].
Proof.
  destruct (fetch_customer_emails_calls flaky_mail_world 24 [] 1699913600%Z ["m1"; "m2"]
              eq_refl eq_refl)
    as (emails & Hfetch & Hsub & _).
  exists emails. split; [ exact Hfetch | exact Hsub ].
Defined.

(** X2. A header is looked up by its name without regard to case, and the
    first header that matches gives the value; the default is returned
    exactly when no header matches. *)
Theorem header_value_first_match (hs : list header) (name default : string) :
  (Forall (fun h => lower (h_name h) <> name) hs
   /\ header_value hs name default = default)
  \/ (exists before h rest,
        hs = before ++ h :: rest
        /\ Forall (fun h' => lower (h_name h') <> name) before
        /\ lower (h_name h) = name
        /\ header_value hs name default = h_value h).
Proof.
  induction hs as [ | h hs IH ]; cbn.
  - left. split; [ constructor | reflexivity ].
  - destruct (String.eqb (lower (h_name h)) name) eqn:Hname.
    + apply String.eqb_eq in Hname. right. exists [], h, hs.
      repeat split; [ constructor | exact Hname ].
    + apply String.eqb_neq in Hname.
      destruct IH as [(Hnone & Hdef) | (before & h0 & rest & -> & Hnone & Hh0 & Hval)].
      * left. split; [ now constructor | exact Hdef ].
      * right. exists (h :: before), h0, rest.
        repeat split; [ now constructor | exact Hh0 | exact Hval ].
Qed.

(** X3. For a multipart message the body is the decoding of the first part
    of type [text/plain] that carries data, whatever parts (HTML,
    attachments) stand before or after it, and the empty string when there
    is none; the body of the payload itself is not read. *)
Theorem extract_body_multipart
  (w : World) (hs : list header) (ps : list part) (payload_data : option string) :
  extract_body w (GmailMessage hs (Some ps) payload_data)
  = match find plain_with_data ps with
    | Some p =>
        match part_data p with
        | Some data => b64decode_utf8 w data
        | None => Ok ""
        end
    | None => Ok ""
    end.
Proof.
  unfold extract_body. cbn [parts].
  induction ps as [ | p ps IH ]; cbn [first_plain_part find]; [ reflexivity | ].
  unfold plain_with_data at 1.
  destruct (String.eqb (mimeType p) "text/plain");
    destruct (part_data p) as [data | ] eqn:Hdata; cbn [andb];
    rewrite ?Hdata; first [ reflexivity | exact IH ].
Qed.

(** ** Further properties of the classifier *)

(** X4. Without a model credential [classify_issue] calls nothing and
    returns Other, Medium and the subject.  With a credential it makes
    exactly one completion call, and returns the same three values when the
    call raises or the completion has no content. *)
Theorem classify_issue_fallback (w : World) (subject body : string) (tr : trace) :
  exists c tr',
    classify_issue w subject body tr = (Ok c, tr')
    /\ (client w = false -> c = Classification "Other" "Medium" subject /\ tr' = tr)
    /\ (client w = true ->
        tr' = tr ++ [OpenAIChat (prompt subject body)]
        /\ ((forall reply, openai_chat w tr (prompt subject body) <> Ok (Some reply)) ->
            c = Classification "Other" "Medium" subject)).
Proof.
  rewrite classify_issue_cases. destruct (client w).
  - eexists. eexists. split; [ reflexivity | ]. split; [ discriminate | ].
    intros _. split; [ reflexivity | ].
    intros Hnone. destruct (openai_chat w tr _) as [[reply | ] | e]; try reflexivity.
    now destruct (Hnone reply).
  - eexists. eexists. split; [ reflexivity | ]. split; [ | discriminate ].
    intros _. split; reflexivity.
Qed.

Section CleanValues.

Lemma newline_is_space (c : ascii) : is_newline c = true -> is_space c = true.
Proof. unfold is_newline. intros H. apply Ascii.eqb_eq in H. now subst c. Qed.

Lemma rstrip_idempotent (s : string) : rstrip (rstrip s) = rstrip s.
Proof.
  induction s as [ | c s IH ]; cbn; [ reflexivity | ].
  destruct (rstrip s) as [ | c' r ] eqn:Hr.
  - destruct (is_space c) eqn:Hc; cbn; [ reflexivity | now rewrite Hc ].
  - cbn. cbn in IH. now rewrite IH.
Qed.

Lemma rstrip_tail (c : ascii) (s : string) :
  rstrip (String c s) = String c s -> rstrip s = s.
Proof.
  cbn. destruct (rstrip s) as [ | c' r ] eqn:Hr.
  - destruct (is_space c); [ discriminate | ]. intros H. now injection H as <-.
  - intros H. now injection H as <-.
Qed.

Lemma rstrip_nonempty (c : ascii) (s : string) :
  is_space c = false -> rstrip (String c s) <> "".
Proof.
  intros Hc. cbn. destruct (rstrip s); [ rewrite Hc | ]; discriminate.
Qed.

Lemma lstrip_clean_head (c : ascii) (s : string) :
  is_space c = false -> lstrip (String c s) = String c s.
Proof. intros Hc. cbn. now rewrite Hc. Qed.

Lemma rstrip_head (c : ascii) (s : string) :
  is_space c = false -> exists r, rstrip (String c s) = String c r.
Proof.
  intros Hc. cbn. destruct (rstrip s); [ rewrite Hc | ]; eauto.
Qed.

Lemma lstrip_no_newline (s : string) :
  contains_newline s = false -> contains_newline (lstrip s) = false.
Proof.
  induction s as [ | c s IH ]; cbn; [ reflexivity | ].
  intros H. apply orb_false_iff in H. destruct H as (Hc & Hs).
  destruct (is_space c); [ auto | ]. cbn. now rewrite Hc, Hs.
Qed.

Lemma rstrip_no_newline (s : string) :
  contains_newline s = false -> contains_newline (rstrip s) = false.
Proof.
  induction s as [ | c s IH ]; cbn; [ reflexivity | ].
  intros H. apply orb_false_iff in H. destruct H as (Hc & Hs).
  specialize (IH Hs).
  destruct (rstrip s) as [ | c' r ].
  - destruct (is_space c); cbn; [ reflexivity | now rewrite Hc ].
  - cbn. cbn in IH. now rewrite Hc, IH.
Qed.

Lemma line_prefix_no_newline (s : string) : contains_newline (Re.line_prefix s) = false.
Proof.
  induction s as [ | c s IH ]; cbn; [ reflexivity | ].
  destruct (is_newline c) eqn:Hc; cbn; [ reflexivity | now rewrite Hc, IH ].
Qed.

(** The stripped text of a group that begins with a character other than
    white space and has no newline. *)
Lemma strip_group_clean (c : ascii) (g : string) :
  is_space c = false ->
  contains_newline (String c g) = false ->
  clean_value (strip (String c g)).
Proof.
  intros Hc Hnl. unfold strip. rewrite (lstrip_clean_head c g Hc).
  split; [ now apply rstrip_nonempty | ].
  split; [ now apply rstrip_no_newline | ].
  destruct (rstrip_head c g Hc) as (r & Hr).
  unfold strip. rewrite Hr, (lstrip_clean_head c r Hc), <- Hr.
  apply rstrip_idempotent.
Qed.

(** On a text without white space at its end, a group begins with a
    character other than white space. *)
Lemma spaces_then_group_none (t : string) :
  rstrip t = t -> Re.spaces_then_group t = None -> t = "".
Proof.
  induction t as [ | c t IH ]; [ reflexivity | ].
  intros Hclean. pose proof (rstrip_tail c t Hclean) as Htail.
  cbn [Re.spaces_then_group]. destruct (is_space c) eqn:Hc.
  - destruct (Re.spaces_then_group t) eqn:Hrec; [ discriminate | ].
    intros _. rewrite (IH Htail eq_refl) in Hclean.
    cbn in Hclean. rewrite Hc in Hclean. discriminate.
  - unfold Re.dot_plus. cbn [Re.line_prefix].
    destruct (is_newline c) eqn:Hnl; [ | discriminate ].
    apply newline_is_space in Hnl. congruence.
Qed.

Lemma spaces_then_group_head (t g : string) :
  rstrip t = t -> Re.spaces_then_group t = Some g ->
  exists c g', g = String c g' /\ is_space c = false
               /\ contains_newline g = false.
Proof.
  induction t as [ | c t IH ]; [ discriminate | ].
  intros Hclean. pose proof (rstrip_tail c t Hclean) as Htail.
  cbn [Re.spaces_then_group]. destruct (is_space c) eqn:Hc.
  - destruct (Re.spaces_then_group t) as [g0 | ] eqn:Hrec.
    + intros H. injection H as <-. now apply IH.
    + rewrite (spaces_then_group_none t Htail Hrec) in Hclean.
      cbn in Hclean. rewrite Hc in Hclean. discriminate.
  - unfold Re.dot_plus.
    pose proof (line_prefix_no_newline (String c t)) as Hline.
    cbn [Re.line_prefix] in *.
    destruct (is_newline c) eqn:Hnl; [ discriminate | ].
    intros H. injection H as <-. eauto.
Qed.

Lemma match_literal_suffix_clean (lit s rest : string) :
  rstrip s = s -> Re.match_literal lit s = Some rest -> rstrip rest = rest.
Proof.
  revert s. induction lit as [ | p lit IH ]; intros s Hclean; cbn.
  - intros H. now injection H as <-.
  - destruct s as [ | c s ]; [ discriminate | ].
    destruct (Ascii.eqb (lower_char c) (lower_char p)); [ | discriminate ].
    apply IH. exact (rstrip_tail c s Hclean).
Qed.

Lemma search_group_head (label s g : string) :
  rstrip s = s -> Re.search label s = Some g ->
  exists c g', g = String c g' /\ is_space c = false
               /\ contains_newline g = false.
Proof.
  induction s as [ | c s IH ]; intros Hclean; cbn [Re.search]; unfold Re.match_here.
  - destruct (Re.match_literal label "") as [rest | ] eqn:Hm; [ | discriminate ].
    destruct (Re.spaces_then_group rest) as [g0 | ] eqn:Hg; [ | discriminate ].
    intros H. injection H as <-.
    exact (spaces_then_group_head rest g0
             (match_literal_suffix_clean _ _ _ Hclean Hm) Hg).
  - destruct (Re.match_literal label (String c s)) as [rest | ] eqn:Hm.
    + destruct (Re.spaces_then_group rest) as [g0 | ] eqn:Hg.
      * intros H. injection H as <-.
        exact (spaces_then_group_head rest g0
                 (match_literal_suffix_clean _ _ _ Hclean Hm) Hg).
      * apply IH. exact (rstrip_tail c s Hclean).
    + apply IH. exact (rstrip_tail c s Hclean).
Qed.

(** A field parsed from a stripped answer is a clean value when its
    default is. *)
Lemma field_clean (label default content : string) :
  clean_value default -> clean_value (field label default (strip content)).
Proof.
  intros Hdefault. unfold field.
  destruct (Re.search label (strip content)) as [g | ] eqn:Hs; [ | exact Hdefault ].
  destruct (search_group_head label (strip content) g) as (c & g' & -> & Hc & Hnl).
  - unfold strip. apply rstrip_idempotent.
  - exact Hs.
  - now apply strip_group_clean.
Qed.

End CleanValues.

(** X5. Whatever the model answers, the category and the priority of a
    classification are never empty, hold no newline, and have no white
    space at either end. *)
Theorem classify_issue_clean_values (w : World) (subject body : string) (tr : trace) :
  exists c tr',
    classify_issue w subject body tr = (Ok c, tr')
    /\ clean_value (category c)
    /\ clean_value (priority c).
Proof.
  assert (Hother : clean_value "Other") by (repeat split; discriminate).
  assert (Hmedium : clean_value "Medium") by (repeat split; discriminate).
  rewrite classify_issue_cases. destruct (client w).
  - eexists. eexists. split; [ reflexivity | ].
    destruct (openai_chat w tr _) as [[content | ] | e]; cbn [category priority fallback];
      auto using field_clean.
  - eexists. eexists. split; [ reflexivity | ]. auto.
Qed.

Section RoundTrip.

Lemma lstrip_length (s : string) : String.length (lstrip s) <= String.length s.
Proof.
  induction s as [ | c s IH ]; cbn; [ lia | ].
  destruct (is_space c); cbn; lia.
Qed.

Lemma rstrip_length (s : string) : String.length (rstrip s) <= String.length s.
Proof.
  induction s as [ | c s IH ]; cbn; [ lia | ].
  destruct (rstrip s); [ destruct (is_space c) | ]; cbn in *; lia.
Qed.

Lemma clean_value_head (v : string) :
  clean_value v -> exists x v', v = String x v' /\ is_space x = false.
Proof.
  intros (Hne & _ & Hstrip).
  destruct v as [ | x v ]; [ now destruct Hne | ].
  exists x, v. split; [ reflexivity | ].
  destruct (is_space x) eqn:Hx; [ | reflexivity ].
  exfalso. unfold strip in Hstrip. cbn [lstrip] in Hstrip. rewrite Hx in Hstrip.
  apply (f_equal String.length) in Hstrip. cbn [String.length] in Hstrip.
  pose proof (rstrip_length (lstrip v)). pose proof (lstrip_length v). lia.
Qed.

Lemma clean_value_rstrip (v : string) : clean_value v -> rstrip v = v.
Proof.
  intros (_ & _ & Hstrip). unfold strip in Hstrip.
  rewrite <- Hstrip at 1. rewrite rstrip_idempotent. exact Hstrip.
Qed.

Lemma rstrip_append (a s : string) :
  s <> "" -> rstrip s = s -> rstrip (a ++ s) = (a ++ s)%string.
Proof.
  intros Hne Hs. induction a as [ | x a IH ]; cbn; [ exact Hs | ].
  rewrite IH. destruct (a ++ s)%string eqn:Happ; [ | reflexivity ].
  destruct a; cbn in Happ; [ now destruct Hne | discriminate ].
Qed.

Lemma line_prefix_value (v tail : string) :
  contains_newline v = false ->
  tail = "" \/ (exists r, tail = String newline r) ->
  Re.line_prefix (v ++ tail) = v.
Proof.
  intros Hv Htail. induction v as [ | x v IH ]; cbn.
  - destruct Htail as [-> | (r & ->)]; reflexivity.
  - cbn in Hv. apply orb_false_iff in Hv. destruct Hv as (Hx & Hv).
    rewrite Hx, (IH Hv). reflexivity.
Qed.

(** The group after a label, one space and a clean value. *)
Lemma group_value (v tail : string) :
  clean_value v ->
  tail = "" \/ (exists r, tail = String newline r) ->
  Re.spaces_then_group (String " " (v ++ tail)) = Some v.
Proof.
  intros Hv Htail.
  destruct (clean_value_head v Hv) as (x & v' & -> & Hx).
  destruct Hv as (_ & Hnl & _).
  pose proof (line_prefix_value (String x v') tail Hnl Htail) as Hline.
  cbn [Re.spaces_then_group append]. cbn [append] in Hline.
  replace (is_space " ") with true by reflexivity.
  rewrite Hx. unfold Re.dot_plus. rewrite Hline. reflexivity.
Qed.

(** A label without a newline does not match across the end of a line. *)
Lemma match_literal_line (label b rest r : string) :
  contains_newline (lower label) = false ->
  Re.match_literal label (b ++ String newline rest) = Some r ->
  exists mid post, b = (mid ++ post)%string /\ lower mid = lower label.
Proof.
  revert b. induction label as [ | p label IH ]; intros b Hlabel Hm.
  - exists "", b. split; reflexivity.
  - cbn in Hlabel. apply orb_false_iff in Hlabel. destruct Hlabel as (Hp & Hlabel).
    destruct b as [ | x b ]; cbn [Re.match_literal append] in Hm.
    + change (lower_char newline) with newline in Hm.
      unfold is_newline in Hp. rewrite Ascii.eqb_sym, Hp in Hm. discriminate.
    + destruct (Ascii.eqb (lower_char x) (lower_char p)) eqn:Hx; [ | discriminate ].
      apply Ascii.eqb_eq in Hx.
      destruct (IH b Hlabel Hm) as (mid & post & -> & Hmid).
      exists (String x mid), post. cbn. now rewrite Hx, Hmid.
Qed.

(** The search goes past a prefix where the label matches nowhere. *)
Lemma search_skip_prefix (label pre rest : string) :
  (forall a b, pre = (a ++ b)%string -> b <> "" ->
               Re.match_literal label (b ++ rest) = None) ->
  Re.search label (pre ++ rest) = Re.search label rest.
Proof.
  induction pre as [ | x pre IH ]; intros Hpre; [ reflexivity | ].
  cbn [append Re.search]. unfold Re.match_here.
  assert (H0 := Hpre "" (String x pre) eq_refl). cbn [append] in H0.
  rewrite H0 by discriminate.
  apply IH. intros a b -> Hb. exact (Hpre (String x a) b eq_refl Hb).
Qed.

(** The search goes past a line where the label does not occur. *)
Lemma search_skip_value (label v rest : string) :
  contains_newline (lower label) = false ->
  ~ occurs label v ->
  Re.search label (v ++ String newline rest) = Re.search label rest.
Proof.
  intros Hlabel Hno.
  assert (Hnone : forall a b, v = (a ++ b)%string ->
                              Re.match_literal label (b ++ String newline rest) = None).
  { intros a b -> .
    destruct (Re.match_literal label (b ++ String newline rest)) as [r | ] eqn:Hm;
      [ | reflexivity ].
    destruct (match_literal_line label b rest r Hlabel Hm) as (mid & post & -> & Hmid).
    destruct Hno. exists a, mid, post. split; [ reflexivity | exact Hmid ]. }
  clear Hno. induction v as [ | x v IH ].
  - cbn [append Re.search]. unfold Re.match_here.
    assert (H0 := Hnone "" "" eq_refl). cbn [append] in H0. now rewrite H0.
  - cbn [append Re.search]. unfold Re.match_here.
    assert (H0 := Hnone "" (String x v) eq_refl). cbn [append] in H0. rewrite H0.
    apply IH. intros a b ->. exact (Hnone (String x a) b eq_refl).
Qed.

Lemma occurs_length (label text : string) :
  occurs label text -> String.length label <= String.length text.
Proof.
  assert (Hlower : forall s, String.length (lower s) = String.length s).
  { induction s as [ | c s IH ]; cbn; [ reflexivity | now rewrite IH ]. }
  assert (Happ : forall a b, String.length (a ++ b) = String.length a + String.length b).
  { induction a as [ | c a IH ]; intros b; cbn; [ reflexivity | now rewrite IH ]. }
  intros (pre & mid & post & -> & Hmid).
  apply (f_equal String.length) in Hmid. rewrite !Hlower in Hmid.
  rewrite !Happ. lia.
Qed.

End RoundTrip.

(** A label that starts with none of the characters of the text before it
    matches at no position of that text. *)
Ltac no_match_in_literal :=
  let a := fresh "a" in
  let b := fresh "b" in
  let H := fresh "H" in
  let Hb := fresh "Hb" in
  intros a b H Hb;
  repeat (destruct a as [ | ? a ];
          [ cbn in H; subst b; reflexivity
          | cbn in H; injection H as ? H ]);
  destruct a; cbn in H; [ subst b; now destruct Hb | discriminate H ].

Lemma search_at_head (label s rest g : string) :
  Re.match_literal label s = Some rest ->
  Re.spaces_then_group rest = Some g ->
  Re.search label s = Some g.
Proof.
  intros Hm Hg. destruct s; cbn [Re.search]; unfold Re.match_here; now rewrite Hm, Hg.
Qed.

Lemma fields_of_formatted_reply (subject c p s : string) :
  clean_value c -> clean_value p -> clean_value s ->
  ~ occurs "Priority:" c -> ~ occurs "Summary:" c -> ~ occurs "Summary:" p ->
  strip (formatted_reply c p s) = formatted_reply c p s
  /\ field "Category:" "Other" (formatted_reply c p s) = c
  /\ field "Priority:" "Medium" (formatted_reply c p s) = p
  /\ field "Summary:" subject (formatted_reply c p s) = s.
Proof.
  intros Hc Hp Hs Hcp Hcs Hps.
  assert (Hgc : forall tail, Re.spaces_then_group (String " " (c ++ String newline tail)) = Some c)
    by (intros; apply group_value; eauto).
  assert (Hgp : forall tail, Re.spaces_then_group (String " " (p ++ String newline tail)) = Some p)
    by (intros; apply group_value; eauto).
  assert (Hgs : Re.spaces_then_group (String " " s) = Some s).
  { rewrite <- (append_empty_r s) at 1. apply group_value; auto. }
  split.
  - assert (Hl : lstrip (formatted_reply c p s) = formatted_reply c p s)
      by (unfold formatted_reply; cbn [append]; now apply lstrip_clean_head).
    unfold strip. rewrite Hl. unfold formatted_reply.
    assert (H := rstrip_append
                   ("Category: " ++ c ++ nl ++ "Priority: " ++ p ++ nl ++ "Summary: ") s).
    rewrite !append_assoc in H.
    apply H; [ now destruct Hs | now apply clean_value_rstrip ].
  - change (formatted_reply c p s)
      with ("Category: "
            ++ (c ++ String newline
                  ("Priority: " ++ (p ++ String newline ("Summary: " ++ s)))))%string.
    unfold field. repeat split.
    + erewrite search_at_head; [ | reflexivity | apply Hgc ].
      now destruct Hc as (_ & _ & ->).
    + rewrite (search_skip_prefix "Priority:" "Category: ") by no_match_in_literal.
      rewrite (search_skip_value "Priority:" c) by (reflexivity || assumption).
      erewrite search_at_head; [ | reflexivity | apply Hgp ].
      now destruct Hp as (_ & _ & ->).
    + rewrite (search_skip_prefix "Summary:" "Category: ") by no_match_in_literal.
      rewrite (search_skip_value "Summary:" c) by (reflexivity || assumption).
      rewrite (search_skip_prefix "Summary:" "Priority: ") by no_match_in_literal.
      rewrite (search_skip_value "Summary:" p) by (reflexivity || assumption).
      erewrite search_at_head; [ | reflexivity | apply Hgs ].
      now destruct Hs as (_ & _ & ->).
Qed.

(** X6. An answer in the format that the prompt asks for is read back
    whole: when the three values are clean (not empty, on one line, no white
    space around) and hold no label of a later field, the classification
    is exactly these three values. *)
Theorem classify_issue_round_trip
  (w : World) (subject body : string) (tr : trace) (c p s : string) :
  client w = true ->
  clean_value c -> clean_value p -> clean_value s ->
  ~ occurs "Priority:" c -> ~ occurs "Summary:" c -> ~ occurs "Summary:" p ->
  openai_chat w tr (prompt subject body) = Ok (Some (formatted_reply c p s)) ->
  classify_issue w subject body tr
  = (Ok (Classification c p s), tr ++ [OpenAIChat (prompt subject body)]).
Proof.
  intros Hclient Hc Hp Hs Hcp Hcs Hps Hchat.
  rewrite classify_issue_cases, Hclient, Hchat.
  destruct (fields_of_formatted_reply subject c p s Hc Hp Hs Hcp Hcs Hps)
    as (-> & -> & -> & ->).
  reflexivity.
Qed.

Lemma classify_issue_round_trip_witness :
  classify_issue
    (example_world (Ok (Some (formatted_reply "Network" "High" "Router is down"))) (Ok []))
    "Office" "The router is down." []
  = (Ok (Classification "Network" "High" "Router is down"),
     [OpenAIChat (prompt "Office" "The router is down.")]).
Proof.
  apply (classify_issue_round_trip
           (example_world (Ok (Some (formatted_reply "Network" "High" "Router is down")))
                          (Ok []))
           "Office" "The router is down." [] "Network" "High" "Router is down");
    try reflexivity;
    try (repeat split; discriminate);
    intros H; apply occurs_length in H; cbn in H; lia.
Defined.

(** ** The classifier: each field on its own *)

Section SingleField.

Lemma match_literal_self (label rest : string) :
  Re.match_literal label (label ++ rest) = Some rest.
Proof.
  induction label as [ | p label IH ]; cbn; [ reflexivity | ].
  now rewrite Ascii.eqb_refl.
Qed.


(** An answer that is one label, a space and a clean value. *)
Lemma single_field_reply (label v : string) :
  clean_value label -> clean_value v ->
  strip (label ++ " " ++ v) = (label ++ " " ++ v)%string
  /\ field label "" (label ++ " " ++ v) = v
  /\ Re.search label (label ++ " " ++ v) = Some v.
Proof.
  intros Hlabel Hv.
  assert (Hs : Re.search label (label ++ " " ++ v) = Some v).
  { eapply search_at_head; [ apply match_literal_self | ].
    cbn [append]. rewrite <- (append_empty_r v) at 1. apply group_value; auto. }
  split; [ | split; [ | exact Hs ] ].
  - destruct (clean_value_head label Hlabel) as (x & l & -> & Hx).
    unfold strip. cbn [append]. rewrite (lstrip_clean_head x _ Hx).
    replace (String x (l ++ String " " v)) with ((String x l ++ " ") ++ v)%string
      by (now rewrite append_assoc).
    apply rstrip_append; [ now destruct Hv | now apply clean_value_rstrip ].
  - unfold field. rewrite Hs. now destruct Hv as (_ & _ & ->).
Qed.


End SingleField.

Lemma label_clean :
  clean_value "Category:" /\ clean_value "Priority:" /\ clean_value "Summary:".
Proof. repeat split; discriminate. Qed.


Lemma field_matched (label default text g : string) :
  Re.search label text = Some g -> field label default text = strip g.
Proof. intros Hs. unfold field. now rewrite Hs. Qed.

Lemma field_unmatched (label default text : string) :
  Re.search label text = None -> field label default text = default.
Proof. intros Hs. unfold field. now rewrite Hs. Qed.



(** C1, amended. [classify_issue] always returns a classification, and its
    category and priority are decided as follows.  Without a model
    credential, or when the call of the model fails or gives no text, they
    are the defaults Other and Medium.  When the model answers, the category
    is the stripped text that follows the first [Category:] label of the
    answer, and the default Other only when that label is not matched; the
    priority is the stripped text that follows the first [Priority:] label,
    and the default Medium only when that label is not matched.  No value
    is checked against the enumerated options: whatever clean text the
    model writes after a label is the value of the field, and
    [add_to_notion] writes the category and the priority to the record as
    they are. *)
Theorem classify_issue_category_priority
  (w : World) (subject body : string) (tr : trace) :
  exists c tr',
    classify_issue w subject body tr = (Ok c, tr')
    /\ (client w = false -> category c = "Other" /\ priority c = "Medium")
    /\ (client w = true ->
        (forall reply, openai_chat w tr (prompt subject body) <> Ok (Some reply)) ->
        category c = "Other" /\ priority c = "Medium")
    /\ (client w = true ->
        forall reply,
          openai_chat w tr (prompt subject body) = Ok (Some reply) ->
          (forall g, Re.search "Category:" (strip reply) = Some g -> category c = strip g)
          /\ (Re.search "Category:" (strip reply) = None -> category c = "Other")
          /\ (forall g, Re.search "Priority:" (strip reply) = Some g -> priority c = strip g)
          /\ (Re.search "Priority:" (strip reply) = None -> priority c = "Medium")
          /\ (forall v, clean_value v -> reply = ("Category: " ++ v)%string ->
                        category c = v)
          /\ (forall v, clean_value v -> reply = ("Priority: " ++ v)%string ->
                        priority c = v)
          /\ (forall cv pv sv,
                clean_value cv -> clean_value pv -> clean_value sv ->
                ~ occurs "Priority:" cv -> ~ occurs "Summary:" cv ->
                ~ occurs "Summary:" pv ->
                reply = formatted_reply cv pv sv ->
                category c = cv /\ priority c = pv))
    /\ (forall e tr2,
          store_configured w = true ->
          exists b properties,
            add_to_notion w e c tr2
              = (Ok b, tr2 ++ [NotionCreate (database_id w) properties])
            /\ np_root_cause properties = category c
            /\ np_priority properties = priority c).
Proof.
  assert (Hstore : forall c e tr2,
             store_configured w = true ->
             exists b properties,
               add_to_notion w e c tr2
                 = (Ok b, tr2 ++ [NotionCreate (database_id w) properties])
               /\ np_root_cause properties = category c
               /\ np_priority properties = priority c).
  { intros c e tr2 Hconf. rewrite add_to_notion_cases, Hconf.
    destruct (notion_create w tr2 _ _); eexists; eexists;
      (split; [ reflexivity | split; reflexivity ]). }
  destruct label_clean as (Hcat & Hpri & _).
  rewrite classify_issue_cases.
  destruct (client w).
  - destruct (openai_chat w tr (prompt subject body)) as [[reply | ] | err] eqn:Hchat;
      eexists; eexists; (split; [ reflexivity | ]);
      (split; [ discriminate | ]).
    + split; [ intros _ Hnone; now destruct (Hnone reply) | ].
      split; [ | apply Hstore ].
      intros _ reply' [= <-]. cbn [category priority].
      split; [ intros g; apply field_matched | ].
      split; [ apply field_unmatched | ].
      split; [ intros g; apply field_matched | ].
      split; [ apply field_unmatched | ].
      split; [ | split ].
      * intros v Hv ->.
        destruct (single_field_reply "Category:" v Hcat Hv) as (Hstrip & _ & Hsearch).
        change ("Category:" ++ " " ++ v)%string with ("Category: " ++ v)%string in *.
        rewrite Hstrip, (field_matched _ _ _ _ Hsearch).
        now destruct Hv as (_ & _ & ->).
      * intros v Hv ->.
        destruct (single_field_reply "Priority:" v Hpri Hv) as (Hstrip & _ & Hsearch).
        change ("Priority:" ++ " " ++ v)%string with ("Priority: " ++ v)%string in *.
        rewrite Hstrip, (field_matched _ _ _ _ Hsearch).
        now destruct Hv as (_ & _ & ->).
      * intros cv pv sv Hc Hp Hs Hcp Hcs Hps ->.
        destruct (fields_of_formatted_reply subject cv pv sv Hc Hp Hs Hcp Hcs Hps)
          as (-> & -> & -> & _).
        split; reflexivity.
    + split; [ intros _ _; split; reflexivity | ].
      split; [ intros _ reply [=] | apply Hstore ].
    + split; [ intros _ _; split; reflexivity | ].
      split; [ intros _ reply [=] | apply Hstore ].
  - eexists. eexists. split; [ reflexivity | ].
    split; [ intros _; split; reflexivity | ].
    split; [ discriminate | ]. split; [ discriminate | apply Hstore ].
Qed.

(** ** Further properties of the record store *)

Lemma take_nonempty (n : nat) (s : string) : s <> "" -> 1 <= String.length (take (S n) s).
Proof. destruct s; [ intros H; now destruct H | cbn; lia ]. Qed.

Lemma or_else_nonempty (a b : string) : b <> "" -> or_else a b <> "".
Proof. unfold or_else. destruct a; cbn; [ auto | discriminate ]. Qed.

(** X7. [add_to_notion] makes at most one create call.  The record it
    sends has a title of 1 to 100 characters (the start of the subject, or
    [No Subject] for an empty one), a description of 1 to 2000 characters,
    and the status New. *)
Theorem add_to_notion_record_bounds
  (w : World) (e : email) (c : classification) (tr : trace) :
  exists b tr',
    add_to_notion w e c tr = (Ok b, tr')
    /\ ((b = false /\ tr' = tr)
        \/ exists properties,
             tr' = tr ++ [NotionCreate (database_id w) properties]
             /\ 1 <= String.length (np_title properties) <= 100
             /\ 1 <= String.length (np_description properties) <= 2000
             /\ np_status properties = "New"
             /\ (subject e <> "" -> np_title properties = take 100 (subject e))
             /\ (subject e = "" -> np_title properties = "No Subject")).
Proof.
  rewrite add_to_notion_cases. destruct (store_configured w).
  - assert (Hbounds :
        1 <= String.length (np_title (record_of w tr e c)) <= 100
        /\ 1 <= String.length (np_description (record_of w tr e c)) <= 2000
        /\ np_status (record_of w tr e c) = "New"
        /\ (subject e <> "" -> np_title (record_of w tr e c) = take 100 (subject e))
        /\ (subject e = "" -> np_title (record_of w tr e c) = "No Subject")).
    { cbn [record_of np_title np_description np_status].
      split; [ split; [ apply take_nonempty, or_else_nonempty; discriminate
                      | apply take_length ] | ].
      split; [ split; [ apply take_nonempty, or_else_nonempty; discriminate
                      | apply take_length ] | ].
      split; [ reflexivity | ].
      unfold or_else. split.
      - intros Hs. destruct (subject e); [ now destruct Hs | reflexivity ].
      - intros ->. reflexivity. }
    destruct (notion_create w tr _ _); eexists; eexists;
      (split; [ reflexivity | right; eexists; split; [ reflexivity | exact Hbounds ] ]).
  - exists false, tr. split; [ reflexivity | left; split; reflexivity ].
Qed.

(** X8. [get_notion_summary] raises nothing and makes at most one query.
    It returns an error summary exactly when the store is not configured
    (and then it calls nothing) or when the query raises (the error is then
    the text of the exception). *)
Theorem get_notion_summary_error (w : World) (tr : trace) :
  exists s tr',
    get_notion_summary w tr = (Ok s, tr')
    /\ (store_configured w = false ->
        s = SummaryError "Notion not configured" /\ tr' = tr)
    /\ (store_configured w = true ->
        tr' = tr ++ [NotionQuery (database_id w)]
        /\ (forall e, notion_query w tr (database_id w) = Raise e ->
                      s = SummaryError (exn_str e))
        /\ (forall rows, notion_query w tr (database_id w) = Ok rows ->
                         exists counts, s = Summary counts)).
Proof.
  rewrite get_notion_summary_cases. destruct (store_configured w).
  - eexists. eexists. split; [ reflexivity | ]. split; [ discriminate | ].
    intros _. split; [ reflexivity | ].
    split; [ intros e -> | intros rows -> ]; eauto.
  - eexists. eexists. split; [ reflexivity | ]. split; [ auto | discriminate ].
Qed.

Section Buckets.

Lemma dict_set_keys (d : dict) (k k' : string) (v : nat) :
  In k' (map fst (dict_set d k v)) <-> k' = k \/ In k' (map fst d).
Proof.
  induction d as [ | [k0 v0] d IH ]; cbn.
  - intuition congruence.
  - destruct (String.eqb k0 k) eqn:Hk; cbn.
    + apply String.eqb_eq in Hk. subst k0. intuition congruence.
    + rewrite IH. intuition congruence.
Qed.

Lemma dict_set_nodup (d : dict) (k : string) (v : nat) :
  NoDup (map fst d) -> NoDup (map fst (dict_set d k v)).
Proof.
  induction d as [ | [k0 v0] d IH ]; cbn; intros Hd.
  - constructor; [ intros [] | constructor ].
  - inversion Hd as [ | ? ? Hnot Hrest ]; subst.
    destruct (String.eqb k0 k) eqn:Hk; cbn.
    + constructor; assumption.
    + constructor; [ | auto ].
      rewrite dict_set_keys. intros [-> | Hin]; [ | contradiction ].
      now rewrite String.eqb_refl in Hk.
Qed.

Lemma dict_set_positive (d : dict) (k : string) (v : nat) :
  1 <= v -> Forall (fun kv => 1 <= snd kv) d ->
  Forall (fun kv => 1 <= snd kv) (dict_set d k v).
Proof.
  intros Hv. induction d as [ | [k0 v0] d IH ]; cbn; intros Hd.
  - constructor; [ exact Hv | constructor ].
  - inversion Hd; subst. destruct (String.eqb k0 k); constructor; auto.
Qed.

Lemma dict_get_in (d : dict) (k : string) (n : nat) :
  NoDup (map fst d) -> In (k, n) d -> dict_get d k 0 = n.
Proof.
  induction d as [ | [k0 v0] d IH ]; cbn; intros Hd Hin; [ contradiction | ].
  inversion Hd as [ | ? ? Hnot Hrest ]; subst.
  destruct Hin as [H | Hin].
  - injection H as -> ->. now rewrite String.eqb_refl.
  - destruct (String.eqb k0 k) eqn:Hk; [ | auto ].
    apply String.eqb_eq in Hk. subst k0.
    destruct Hnot. apply (in_map fst) in Hin. exact Hin.
Qed.

Lemma dict_in_get (d : dict) (k : string) (n : nat) :
  dict_get d k 0 = n -> 1 <= n -> In (k, n) d.
Proof.
  induction d as [ | [k0 v0] d IH ]; cbn; intros Hget Hn; [ lia | ].
  destruct (String.eqb k0 k) eqn:Hk; [ | auto ].
  apply String.eqb_eq in Hk. subst. now left.
Qed.

(** The dictionary that the loop builds from the keys of the rows. *)
Lemma fold_add_count_buckets (keys : list (option string)) :
  forall d,
    NoDup (map fst d) -> Forall (fun kv => 1 <= snd kv) d ->
    NoDup (map fst (fold_left add_count keys d))
    /\ Forall (fun kv => 1 <= snd kv) (fold_left add_count keys d).
Proof.
  induction keys as [ | [k | ] keys IH ]; intros d Hd Hpos; cbn [fold_left add_count].
  - auto.
  - apply IH; [ now apply dict_set_nodup | apply dict_set_positive; [ lia | exact Hpos ] ].
  - now apply IH.
Qed.

Lemma buckets_of_keys (keys : list (option string)) :
  NoDup (map fst (fold_left add_count keys []))
  /\ forall k n,
       In (k, n) (fold_left add_count keys [])
       <-> n = List.length (filter (is_value k) keys) /\ 1 <= n.
Proof.
  destruct (fold_add_count_buckets keys [] (NoDup_nil _) (Forall_nil _)) as (Hd & Hpos).
  split; [ exact Hd | ].
  intros k n. pose proof (fold_add_count_get keys [] k) as Hget. cbn in Hget.
  split.
  - intros Hin. split.
    + rewrite <- Hget. symmetry. now apply dict_get_in.
    + rewrite Forall_forall in Hpos. exact (Hpos (k, n) Hin).
  - intros (-> & Hn). apply dict_in_get; [ exact Hget | exact Hn ].
Qed.

End Buckets.

(** X9. In the summary of any list of rows, [by_category] has one entry for
    each category that some row has, and no other: its keys are distinct,
    and an entry [(k, n)] is there exactly when [n] rows have the category
    [k] and [n] is at least 1.  The same holds of [by_priority]. *)
Theorem summarize_buckets (rows : list page) :
  NoDup (map fst (by_category (summarize rows)))
  /\ (forall k n, In (k, n) (by_category (summarize rows))
                  <-> n = count_category rows k /\ 1 <= n)
  /\ NoDup (map fst (by_priority (summarize rows)))
  /\ (forall k n, In (k, n) (by_priority (summarize rows))
                  <-> n = count_priority rows k /\ 1 <= n).
Proof.
  rewrite summarize_by_category, summarize_by_priority.
  destruct (buckets_of_keys (map row_category rows)) as (Hc & Hcn).
  destruct (buckets_of_keys (map row_priority rows)) as (Hp & Hpn).
  unfold count_category, count_priority.
  split; [ exact Hc | ].
  split; [ intros k n; rewrite <- filter_map_length; apply Hcn | ].
  split; [ exact Hp | ].
  intros k n. rewrite <- filter_map_length. apply Hpn.
Qed.

(** ** Further properties of the notifier *)

Lemma bullets_length (d : dict) :
  List.length (bullets d) = Nat.max 1 (List.length d).
Proof. destruct d as [ | kv [ | kv' d ] ]; cbn; try reflexivity. now rewrite length_map. Qed.

(** X10. The message that [send_slack_digest] posts shows the total of the
    summary; for [by_category] and for [by_priority], exactly one bullet
    line for each entry, in the order of the dictionary, or the single
    placeholder line None when the dictionary is empty; and from one to
    five lines of High-priority titles: exactly the first five of the
    summary, in order, or the single placeholder line when there is no
    High-priority title. *)
Theorem send_slack_digest_message (w : World) (c : counts) (tr : trace) :
  webhook_configured w = true ->
  exists b message,
    send_slack_digest w (Summary c) tr
      = (Ok b, tr ++ [SlackPost (webhook_url w) message])
    /\ digest_total message = total c
    /\ List.length (category_text message) = Nat.max 1 (List.length (by_category c))
    /\ List.length (priority_text message) = Nat.max 1 (List.length (by_priority c))
    /\ (forall k n, In (k, n) (by_category c) -> In (Bullet k n) (category_text message))
    /\ (forall k n, In (k, n) (by_priority c) -> In (Bullet k n) (priority_text message))
    /\ 1 <= List.length (high_priority_text message) <= 5
    /\ (high_priority c <> [] ->
        high_priority_text message = map HighItem (firstn 5 (high_priority c)))
    /\ (high_priority c = [] -> high_priority_text message = [NoHighItems])
    /\ (by_category c = [] -> category_text message = [BulletNone])
    /\ (by_category c <> [] ->
        category_text message = map (fun kv => Bullet (fst kv) (snd kv)) (by_category c))
    /\ (by_priority c = [] -> priority_text message = [BulletNone])
    /\ (by_priority c <> [] ->
        priority_text message = map (fun kv => Bullet (fst kv) (snd kv)) (by_priority c)).
Proof.
  intros Hhook. rewrite send_slack_digest_cases, Hhook. cbn zeta.
  eexists. eexists. split; [ reflexivity | ].
  cbn [digest_total category_text priority_text high_priority_text].
  assert (Hin : forall d k n, In (k, n) d -> In (Bullet k n) (bullets d)).
  { intros d k n H. unfold bullets.
    apply (in_map (fun kv => Bullet (fst kv) (snd kv))) in H. cbn in H.
    destruct (map _ d); [ contradiction | exact H ]. }
  split; [ reflexivity | ].
  split; [ apply bullets_length | ]. split; [ apply bullets_length | ].
  split; [ apply Hin | ]. split; [ apply Hin | ].
  assert (Hnone : forall d, d = [] -> bullets d = [BulletNone])
    by (intros d ->; reflexivity).
  assert (Hsome : forall d, d <> [] ->
                            bullets d = map (fun kv => Bullet (fst kv) (snd kv)) d)
    by (intros [ | kv d ] H; [ now destruct H | reflexivity ]).
  destruct (high_priority c) as [ | t ts ] eqn:Hhigh.
  - split; [ cbn; lia | ]. split; [ intros H; now destruct H | ].
    split; [ reflexivity | ]. auto.
  - split; [ rewrite length_map, length_firstn; cbn [List.length]; lia | ].
    split; [ reflexivity | ]. split; [ discriminate | ]. auto.
Qed.

Lemma send_slack_digest_message_witness :
  exists b message,
    send_slack_digest (example_world (Ok None) (Ok six_high_rows))
                      (Summary (summarize six_high_rows)) []
      = (Ok b, [SlackPost "https://hooks.example/T" message])
    /\ high_priority_text message
       = [HighItem "t1"; HighItem "t2"; HighItem "t3"; HighItem "t4"; HighItem "t5"].
Proof.
  destruct (send_slack_digest_message (example_world (Ok None) (Ok six_high_rows))
              (summarize six_high_rows) [] eq_refl)
    as (b & message & Hsend & _ & _ & _ & _ & _ & _ & Hhigh & _).
  exists b, message. split; [ exact Hsend | ].
  apply Hhigh. discriminate.
Defined.

(** ** Further properties of the pipeline *)

Section Traces.

Variable w : World.

Lemma calls_app (kind : event -> bool) (a b : trace) :
  calls kind (a ++ b) = calls kind a + calls kind b.
Proof. unfold calls. now rewrite filter_app, length_app. Qed.

(** The events of one turn of the loop of step 2. *)
Lemma classify_loop_turn (e : email) (rest : list email) (processed : nat) (tr : trace) :
  exists (added : bool) (evs : trace),
    classify_loop w (e :: rest) processed tr
    = classify_loop w rest (if added then processed + 1 else processed) (tr ++ evs)
    /\ calls is_chat_event evs = (if client w then 1 else 0)
    /\ calls is_create_event evs = (if store_configured w then 1 else 0)
    /\ Forall (fun ev => is_chat_event ev || is_create_event ev = true) evs
    /\ (added = true -> store_configured w = true)
    /\ (client w = false -> Forall default_record evs).
Proof.
  cbn [classify_loop]. unfold bind at 1. unfold try_except, bind at 1.
  rewrite classify_issue_cases.
  destruct (client w) eqn:Hclient.
  - unfold bind at 1. rewrite add_to_notion_cases.
    destruct (store_configured w) eqn:Hstore.
    + match goal with
      | |- context [notion_create w ?t ?d ?r] =>
          exists (match notion_create w t d r with Ok _ => true | Raise _ => false end);
          exists [OpenAIChat (prompt (subject e) (body e)); NotionCreate d r];
          destruct (notion_create w t d r)
      end; rewrite <- app_assoc;
        (split; [ reflexivity | ]); repeat split; auto; discriminate.
    + exists false, [OpenAIChat (prompt (subject e) (body e))].
      split; [ reflexivity | ]. repeat split; auto; discriminate.
  - unfold bind at 1. rewrite add_to_notion_cases.
    destruct (store_configured w) eqn:Hstore.
    + match goal with
      | |- context [notion_create w ?t ?d ?r] =>
          exists (match notion_create w t d r with Ok _ => true | Raise _ => false end);
          exists [NotionCreate d r];
          destruct (notion_create w t d r)
      end; (split; [ reflexivity | ]); repeat split; auto;
        intros _; repeat constructor.
    + exists false, []. rewrite app_nil_r.
      split; [ reflexivity | ]. repeat split; auto; discriminate.
Qed.

Lemma classify_loop_shape (emails : list email) :
  forall (processed : nat) (tr : trace),
  exists n evs,
    classify_loop w emails processed tr = (Ok n, tr ++ evs)
    /\ calls is_chat_event evs = (if client w then List.length emails else 0)
    /\ calls is_create_event evs = (if store_configured w then List.length emails else 0)
    /\ Forall (fun ev => is_chat_event ev || is_create_event ev = true) evs
    /\ processed <= n <= processed + calls is_create_event evs
    /\ (client w = false -> Forall default_record evs).
Proof.
  induction emails as [ | e rest IH ]; intros processed tr.
  - exists processed, []. rewrite app_nil_r. cbn.
    split; [ reflexivity | ].
    destruct (client w), (store_configured w); repeat split; auto; lia.
  - destruct (classify_loop_turn e rest processed tr)
      as (added & evs1 & -> & Hchat1 & Hcreate1 & Hkind1 & Hadded & Hdef1).
    destruct (IH (if added then processed + 1 else processed) (tr ++ evs1))
      as (n & evs2 & -> & Hchat2 & Hcreate2 & Hkind2 & Hn & Hdef2).
    exists n, (evs1 ++ evs2). rewrite app_assoc.
    split; [ reflexivity | ].
    rewrite !calls_app, Hchat1, Hchat2, Hcreate1, Hcreate2. cbn [List.length].
    split; [ destruct (client w); lia | ].
    split; [ destruct (store_configured w); lia | ].
    split; [ apply Forall_app; auto | ].
    split.
    + destruct added; [ rewrite (Hadded eq_refl) in *; lia | ].
      destruct (store_configured w); lia.
    + intros Hclient. apply Forall_app; auto.
Qed.

(** The events of step 3. *)
Lemma digest_step_shape (tr : trace) :
  exists sent evs,
    digest_step w tr = (Ok sent, tr ++ evs)
    /\ Forall (fun ev => is_query_event ev || is_post_event ev = true) evs
    /\ calls is_query_event evs <= 1
    /\ calls is_post_event evs <= 1
    /\ (store_configured w = false -> evs = [] /\ sent = false)
    /\ (sent = true ->
        store_configured w = true /\ webhook_configured w = true
        /\ exists message,
             evs = [NotionQuery (database_id w); SlackPost (webhook_url w) message]
             /\ slack_post w (tr ++ [NotionQuery (database_id w)]) (webhook_url w) message
                = Ok 200%Z).
Proof.
  unfold digest_step, try_except. unfold bind at 1.
  rewrite get_notion_summary_cases.
  destruct (store_configured w) eqn:Hstore.
  - destruct (notion_query w tr (database_id w)) as [rows | e].
    + rewrite send_slack_digest_cases.
      destruct (webhook_configured w) eqn:Hhook.
      * cbn zeta.
        match goal with
        | |- context [slack_post w ?t ?u ?m] =>
            destruct (slack_post w t u m) as [code | e] eqn:Hpost;
            [ exists (code =? 200)%Z | exists false ];
            exists [NotionQuery (database_id w); SlackPost u m]
        end; rewrite <- app_assoc;
          (split; [ reflexivity | ]);
          (split; [ repeat constructor | ]);
          (split; [ cbn; lia | ]); (split; [ cbn; lia | ]);
          (split; [ discriminate | ]).
        -- intros Hcode. apply Z.eqb_eq in Hcode. subst code.
           split; [ reflexivity | ]. split; [ reflexivity | ]. eauto.
        -- discriminate.
      * exists false, [NotionQuery (database_id w)].
        split; [ reflexivity | ].
        split; [ repeat constructor | ].
        split; [ cbn; lia | ]. split; [ cbn; lia | ].
        split; discriminate.
    + exists false, [NotionQuery (database_id w)].
      split; [ reflexivity | ].
      split; [ repeat constructor | ].
      split; [ cbn; lia | ]. split; [ cbn; lia | ].
      split; discriminate.
  - exists false, []. rewrite app_nil_r.
    split; [ reflexivity | ].
    split; [ constructor | ].
    split; [ cbn; lia | ]. split; [ cbn; lia | ].
    split; [ auto | discriminate ].
Qed.

(** The events of step 1. *)
Lemma fetch_step_shape (hours_back : Z) (tr : trace) :
  exists evs,
    snd (fetch_step w hours_back tr) = tr ++ evs
    /\ Forall (fun ev => is_gmail_event ev = true) evs.
Proof.
  unfold fetch_step, authenticate_gmail, bind, call.
  destruct (gmail_auth w tr) as [u | e].
  - rewrite fetch_customer_emails_cases.
    destruct (time_ago w (tr ++ [GmailAuth]) hours_back) as [after | e].
    + destruct (gmail_list w (tr ++ [GmailAuth]) after) as [messages | e].
      * destruct (fetch_loop_calls w messages [] ((tr ++ [GmailAuth]) ++ [GmailList after]))
          as (kept & -> & _).
        exists (GmailAuth :: GmailList after :: map GmailGet messages).
        cbn [snd]. rewrite <- !app_assoc. split; [ reflexivity | ].
        repeat constructor. apply Forall_map, Forall_forall. reflexivity.
      * exists [GmailAuth; GmailList after]. cbn [snd]. rewrite <- app_assoc.
        split; [ reflexivity | repeat constructor ].
    + exists [GmailAuth]. split; [ reflexivity | repeat constructor ].
  - exists [GmailAuth]. split; [ reflexivity | repeat constructor ].
Qed.

End Traces.

Lemma calls_none (kind : event -> bool) (evs : trace) :
  Forall (fun ev => kind ev = false) evs -> calls kind evs = 0.
Proof.
  unfold calls. induction 1 as [ | ev evs Hev _ IH ]; cbn; [ reflexivity | ].
  now rewrite Hev.
Qed.

Lemma Forall_kind_other (kind other : event -> bool) (evs : trace) :
  (forall ev, kind ev = true -> other ev = false) ->
  Forall (fun ev => kind ev = true) evs -> Forall (fun ev => other ev = false) evs.
Proof. intros Hk. apply Forall_impl. exact Hk. Qed.

(** The run as a whole: the Gmail calls of step 1, then the calls of
    steps 2 and 3. *)
Lemma run_full_pipeline_shape (w : World) (hours_back : Z) (tr : trace) :
  exists r gmail_calls evs,
    run_full_pipeline w hours_back tr = (Ok r, tr ++ gmail_calls ++ evs)
    /\ Forall (fun ev => is_gmail_event ev = true) gmail_calls
    /\ Forall (fun ev => is_gmail_event ev = false) evs
    /\ calls is_chat_event evs = (if client w then emails_found r else 0)
    /\ calls is_create_event evs = (if store_configured w then emails_found r else 0)
    /\ calls is_query_event evs <= 1
    /\ calls is_post_event evs <= 1
    /\ emails_processed r <= calls is_create_event evs
    /\ (client w = false -> Forall default_record evs)
    /\ (store_configured w = false ->
        calls is_query_event evs = 0 /\ calls is_post_event evs = 0
        /\ digest_sent r = false)
    /\ (digest_sent r = true ->
        store_configured w = true /\ webhook_configured w = true
        /\ exists before message,
             tr ++ gmail_calls ++ evs = before ++ [SlackPost (webhook_url w) message]
             /\ slack_post w before (webhook_url w) message = Ok 200%Z).
Proof.
  destruct (fetch_step_shape w hours_back tr) as (gm & Hgm & Hgmail).
  unfold run_full_pipeline.
  destruct (fetch_step w hours_back tr) as [[emails | e] tr1]; cbn [snd] in Hgm; subst tr1.
  - unfold bind at 1.
    destruct (classify_loop_shape w emails 0 (tr ++ gm))
      as (n & evs2 & -> & Hchat & Hcreate & Hkind2 & Hn & Hdef).
    unfold bind at 1.
    destruct (digest_step_shape w ((tr ++ gm) ++ evs2))
      as (sent & evs3 & -> & Hkind3 & Hquery & Hpost & Hnostore & Hsent).
    exists (MkRunResult (List.length emails) n sent None), gm, (evs2 ++ evs3).
    cbn [emails_found emails_processed digest_sent].
    assert (Hq2 : calls is_query_event evs2 = 0).
    { apply calls_none. revert Hkind2. apply Forall_impl. now intros []. }
    assert (Hp2 : calls is_post_event evs2 = 0).
    { apply calls_none. revert Hkind2. apply Forall_impl. now intros []. }
    assert (Hc3 : calls is_chat_event evs3 = 0).
    { apply calls_none. revert Hkind3. apply Forall_impl. now intros []. }
    assert (Hn3 : calls is_create_event evs3 = 0).
    { apply calls_none. revert Hkind3. apply Forall_impl. now intros []. }
    rewrite !calls_app, Hq2, Hp2, Hc3, Hn3, Hchat, Hcreate, !Nat.add_0_r.
    split; [ unfold ret; now rewrite <- !app_assoc | ].
    split; [ exact Hgmail | ].
    split; [ apply Forall_app; split;
             [ revert Hkind2 | revert Hkind3 ]; apply Forall_impl; now intros [] | ].
    split; [ reflexivity | ]. split; [ reflexivity | ].
    split; [ exact Hquery | ]. split; [ exact Hpost | ].
    split; [ rewrite Hcreate in Hn; lia | ].
    split.
    { intros Hclient. apply Forall_app. split; [ auto | ].
      revert Hkind3. apply Forall_impl. now intros []. }
    split.
    { intros Hstore. destruct (Hnostore Hstore) as (-> & ->). auto. }
    intros Hs. destruct (Hsent Hs) as (Hstore & Hhook & message & -> & H200).
    split; [ exact Hstore | ]. split; [ exact Hhook | ].
    exists (((tr ++ gm) ++ evs2) ++ [NotionQuery (database_id w)]), message.
    split; [ now rewrite <- !app_assoc | exact H200 ].
  - exists (MkRunResult 0 0 false (Some (exn_str e))), gm, [].
    cbn [emails_found emails_processed digest_sent]. rewrite app_nil_r.
    split; [ reflexivity | ].
    split; [ exact Hgmail | ]. split; [ constructor | ].
    cbn. destruct (client w), (store_configured w);
      repeat split; auto; try lia; try discriminate.
Qed.

(** X11. A run first makes its Gmail calls and then none.  After them it
    makes one completion call for each message found when a model credential
    is configured (none otherwise), one create call for each message found
    when the store is configured (none otherwise), at most one query and at
    most one post: no call is repeated.  The count of processed messages is
    at most the number of create calls. *)
Theorem run_full_pipeline_calls (w : World) (hours_back : Z) (tr : trace) :
  exists r gmail_calls evs,
    run_full_pipeline w hours_back tr = (Ok r, tr ++ gmail_calls ++ evs)
    /\ Forall (fun ev => is_gmail_event ev = true) gmail_calls
    /\ Forall (fun ev => is_gmail_event ev = false) evs
    /\ calls is_chat_event evs = (if client w then emails_found r else 0)
    /\ calls is_create_event evs = (if store_configured w then emails_found r else 0)
    /\ calls is_query_event evs <= 1
    /\ calls is_post_event evs <= 1
    /\ emails_processed r <= calls is_create_event evs.
Proof.
  destruct (run_full_pipeline_shape w hours_back tr)
    as (r & gm & evs & Hrun & H1 & H2 & H3 & H4 & H5 & H6 & H7 & _).
  exists r, gm, evs. repeat (split; [ assumption | ]). assumption.
Qed.

(** X12. When the record store is not configured, a run processes no
    message and sends no digest, and it calls neither the store nor the
    webhook; the messages are still fetched and classified. *)
Theorem run_full_pipeline_without_store (w : World) (hours_back : Z) (tr : trace) :
  store_configured w = false ->
  exists r evs,
    run_full_pipeline w hours_back tr = (Ok r, tr ++ evs)
    /\ emails_processed r = 0
    /\ digest_sent r = false
    /\ calls is_create_event evs = 0
    /\ calls is_query_event evs = 0
    /\ calls is_post_event evs = 0.
Proof.
  intros Hstore.
  destruct (run_full_pipeline_shape w hours_back tr)
    as (r & gm & evs & Hrun & Hgm & _ & _ & Hcreate & _ & _ & Hn & _ & Hno & _).
  rewrite Hstore in Hcreate. destruct (Hno Hstore) as (Hq & Hp & Hsent).
  assert (Hkind : forall kind, (forall ev, is_gmail_event ev = true -> kind ev = false) ->
                               calls kind gm = 0).
  { intros kind Hk. apply calls_none. revert Hgm. apply Forall_impl. exact Hk. }
  exists r, (gm ++ evs). rewrite !calls_app, Hcreate, Hq, Hp.
  rewrite !Hkind by (now intros []).
  repeat split; auto. lia.
Qed.

Lemma run_full_pipeline_without_store_witness :
  exists r evs,
    run_full_pipeline flaky_mail_world 24 [] = (Ok r, evs)
    /\ emails_processed r = 0 /\ digest_sent r = false
    /\ calls is_create_event evs = 0.
Proof.
  destruct (run_full_pipeline_without_store flaky_mail_world 24 [] eq_refl)
    as (r & evs & Hrun & Hn & Hsent & Hcreate & _).
  exists r, evs. auto.
Defined.

(** X13. When no model credential is configured, a run makes no completion
    call, and every record it creates has the category Other and the
    priority Medium. *)
Theorem run_full_pipeline_without_model (w : World) (hours_back : Z) (tr : trace) :
  client w = false ->
  exists r evs,
    run_full_pipeline w hours_back tr = (Ok r, tr ++ evs)
    /\ calls is_chat_event evs = 0
    /\ Forall default_record evs.
Proof.
  intros Hclient.
  destruct (run_full_pipeline_shape w hours_back tr)
    as (r & gm & evs & Hrun & Hgm & _ & Hchat & _ & _ & _ & _ & Hdef & _).
  rewrite Hclient in Hchat.
  exists r, (gm ++ evs). rewrite calls_app, Hchat.
  split; [ exact Hrun | ]. split.
  - rewrite calls_none; [ reflexivity | ].
    revert Hgm. apply Forall_impl. now intros [].
  - apply Forall_app. split; [ | auto ].
    revert Hgm. apply Forall_impl. now intros [].
Qed.

Lemma run_full_pipeline_without_model_witness :
  exists r evs,
    run_full_pipeline no_model_world 24 [] = (Ok r, evs)
    /\ calls is_chat_event evs = 0
    /\ Forall default_record evs.
Proof.
  destruct (run_full_pipeline_without_model no_model_world 24 [] eq_refl)
    as (r & evs & Hrun & Hchat & Hdef).
  exists r, evs. auto.
Defined.

(** X14. A run reports the digest as sent only when the store and the
    webhook are configured and the last call of the run is the post to the
    webhook, answered with status 200. *)
Theorem run_full_pipeline_digest_sent
  (w : World) (hours_back : Z) (tr tr' : trace) (r : RunResult) :
  run_full_pipeline w hours_back tr = (Ok r, tr') ->
  digest_sent r = true ->
  store_configured w = true /\ webhook_configured w = true
  /\ exists before message,
       tr' = before ++ [SlackPost (webhook_url w) message]
       /\ slack_post w before (webhook_url w) message = Ok 200%Z.
Proof.
  intros Hrun Hsent.
  destruct (run_full_pipeline_shape w hours_back tr)
    as (r0 & gm & evs & Hrun0 & _ & _ & _ & _ & _ & _ & _ & _ & _ & Hdigest).
  rewrite Hrun in Hrun0. injection Hrun0 as -> ->.
  exact (Hdigest Hsent).
Qed.

Lemma run_full_pipeline_digest_sent_witness :
  store_configured (example_world (Ok None) (Ok three_rows)) = true
  /\ webhook_configured (example_world (Ok None) (Ok three_rows)) = true.
Proof.
  destruct (run_full_pipeline_digest_sent (example_world (Ok None) (Ok three_rows)) 24 []
              _ _ eq_refl eq_refl) as (Hstore & Hhook & _).
  split; assumption.
Defined.

(** ** Further properties of the boundary *)

Lemma run_full_pipeline_total (w : World) (hours_back : Z) :
  never_raises (run_full_pipeline w hours_back).
Proof.
  intros tr.
  destruct (run_full_pipeline_shape w hours_back tr) as (r & gm & evs & -> & _).
  eauto.
Qed.

(** A value of the interval passes the validation and converts to an
    integer of the interval. *)
Lemma in_range_int (v : App.json) :
  in_range v ->
  negb (App.is_int_or_float v) || App.ltb v 1 || App.gtb v 168 = false
  /\ exists h, App.int v = Ok h /\ (1 <= h <= 168)%Z.
Proof.
  intros Hin. split.
  - assert (Hnan : v <> App.JFloat FNan) by (intros ->; exact Hin).
    destruct (negb (App.is_int_or_float v) || App.ltb v 1 || App.gtb v 168) eqn:Hc;
      [ | reflexivity ].
    apply (validation_refuses v Hnan) in Hc. contradiction.
  - destruct v as [z | [ | negative | m e] | b | ]; cbn -[Z.mul Z.pow Z.quot] in *;
      try contradiction.
    + eauto.
    + eexists. split; [ reflexivity | ].
      destruct (0 <=? e)%Z eqn:He; [ exact Hin | ].
      apply Z.leb_gt in He.
      assert (Hpow : (0 < 2 ^ (- e))%Z) by (apply Z.pow_pos_nonneg; lia).
      rewrite Z.quot_div_nonneg by lia. split.
      * apply Z.div_le_lower_bound; lia.
      * apply Z.div_le_upper_bound; lia.
    + eauto.
Qed.

(** X15. For a value of ['hours'] in the interval, an integer, a boolean
    or a float, [run_pipeline] runs the pipeline over a whole number of
    hours between 1 and 168 (a float is truncated) and answers 200 with the
    result of the run, whatever the run met; without a value the run is
    over 24 hours. *)
Theorem run_pipeline_accepts (w : World) (v : App.json) (tr : trace) :
  in_range v ->
  exists h r tr',
    (1 <= h <= 168)%Z
    /\ App.int v = Ok h
    /\ run_full_pipeline w h tr = (Ok r, tr')
    /\ App.run_pipeline w (Some v) tr = (Ok (App.Response 200 true None (Some r)), tr')
    /\ App.run_pipeline w None tr = App.run_pipeline w (Some (App.JInt 24)) tr.
Proof.
  intros Hin. destruct (in_range_int v Hin) as (Hvalid & h & Hint & Hh).
  destruct (run_full_pipeline_total w h tr) as (r & tr' & Hrun).
  exists h, r, tr'. repeat (split; [ assumption | ]).
  split; [ | reflexivity ].
  unfold App.run_pipeline, try_except. rewrite Hvalid.
  unfold bind, lift. now rewrite Hint, Hrun.
Qed.

Lemma run_pipeline_accepts_witness :
  exists r tr',
    run_full_pipeline no_credentials_world 1 [] = (Ok r, tr')
    /\ App.run_pipeline no_credentials_world (Some (App.JFloat (FFin 3 (-1)))) []
       = (Ok (App.Response 200 true None (Some r)), tr').
Proof.
  destruct (run_pipeline_accepts no_credentials_world (App.JFloat (FFin 3 (-1))) [])
    as (h & r & tr' & _ & Hint & Hrun & Hroute & _).
  - cbn. lia.
  - injection Hint as <-. exists r, tr'. split; assumption.
Defined.

(** X16. [run_pipeline] raises nothing and answers 200, 400 or 500, never
    501; [success] is true exactly for 200; and every answer other than 200
    is given before any external call. *)
Theorem run_pipeline_responses (w : World) (hours_field : option App.json) (tr : trace) :
  exists resp tr',
    App.run_pipeline w hours_field tr = (Ok resp, tr')
    /\ (App.status resp = 200 \/ App.status resp = 400 \/ App.status resp = 500)%Z
    /\ (App.success resp = true <-> App.status resp = 200%Z)
    /\ (App.status resp <> 200%Z -> tr' = tr).
Proof.
  unfold App.run_pipeline, try_except.
  set (hours := match hours_field with Some v => v | None => App.JInt 24 end).
  destruct (negb (App.is_int_or_float hours) || App.ltb hours 1 || App.gtb hours 168)
    eqn:Hvalid.
  - eexists. eexists. split; [ reflexivity | ]. cbn.
    split; [ auto | ]. split; [ split; discriminate | reflexivity ].
  - unfold bind at 1. unfold lift.
    destruct (App.int hours) as [h | e] eqn:Hint.
    + destruct (run_full_pipeline_total w h tr) as (r & tr' & Hrun).
      unfold bind. rewrite Hrun.
      eexists. eexists. split; [ reflexivity | ]. cbn.
      split; [ auto | ]. split; [ split; reflexivity | ]. intros H. now destruct H.
    + assert (Hclass : String.eqb (exn_class e) "NotImplementedError" = false).
      { destruct hours as [z | [ | negative | m e0] | b | ]; cbn in Hint;
          try discriminate; injection Hint as <-; reflexivity. }
      rewrite Hclass.
      eexists. eexists. split; [ reflexivity | ]. cbn.
      split; [ auto | ]. split; [ split; discriminate | reflexivity ].
Qed.

(** X17. [run_pipeline] and the last-run status: a request refused with
    400 leaves the status as it was; a run, whatever its result, records
    [Success], the time and the count of processed messages; a failure
    before the run records [Error: ...] and keeps the time and the count of
    the run before. *)
Theorem run_pipeline_last_run
  (w : World) (timestamp : trace -> string) (hours_field : option App.json)
  (last_run_info : Routes.last_run) (tr : trace) :
  exists resp last_run_info' tr',
    Routes.run_pipeline w timestamp hours_field last_run_info tr
      = (Ok (resp, last_run_info'), tr')
    /\ App.run_pipeline w hours_field tr = (Ok resp, tr')
    /\ (App.status resp = 400%Z -> last_run_info' = last_run_info)
    /\ (App.status resp = 200%Z ->
        exists r,
          App.result resp = Some r
          /\ last_run_info'
             = Routes.LastRun (Some (timestamp tr')) "Success" (emails_processed r))
    /\ (App.status resp = 500%Z ->
        Routes.lr_timestamp last_run_info' = Routes.lr_timestamp last_run_info
        /\ Routes.lr_emails_processed last_run_info'
           = Routes.lr_emails_processed last_run_info
        /\ exists message,
             App.error_message resp = Some ("Pipeline failed: " ++ message)%string
             /\ Routes.lr_status last_run_info' = ("Error: " ++ message)%string).
Proof.
  unfold Routes.run_pipeline, App.run_pipeline, try_except.
  set (hours := match hours_field with Some v => v | None => App.JInt 24 end).
  destruct (negb (App.is_int_or_float hours) || App.ltb hours 1 || App.gtb hours 168)
    eqn:Hvalid.
  - eexists. eexists. eexists. split; [ reflexivity | ]. split; [ reflexivity | ].
    cbn. split; [ reflexivity | ]. split; discriminate.
  - unfold bind, lift, read, ret.
    destruct (App.int hours) as [h | e] eqn:Hint.
    + destruct (run_full_pipeline_total w h tr) as (r & tr' & Hrun).
      rewrite Hrun.
      eexists. eexists. eexists. split; [ reflexivity | ]. split; [ reflexivity | ].
      cbn. split; [ discriminate | ]. split; [ eauto | discriminate ].
    + assert (Hclass : String.eqb (exn_class e) "NotImplementedError" = false).
      { destruct hours as [z | [ | negative | m e0] | b | ]; cbn in Hint;
          try discriminate; injection Hint as <-; reflexivity. }
      rewrite Hclass.
      eexists. eexists. eexists. split; [ reflexivity | ]. split; [ reflexivity | ].
      cbn. split; [ discriminate | ]. split; [ discriminate | ]. eauto.
Qed.

(** X18. The scheduled job runs the pipeline over 168 hours and always
    records [Success (Scheduled)], with the time and the count of processed
    messages of the run, also when the run could not reach Gmail; it never
    records an error. *)
Theorem scheduled_job_records_success
  (w : World) (timestamp : trace -> string) (last_run_info : Routes.last_run)
  (tr : trace) :
  exists r tr',
    run_full_pipeline w 168 tr = (Ok r, tr')
    /\ Routes.scheduled_job w timestamp last_run_info tr
       = (Ok (Routes.LastRun (Some (timestamp tr')) "Success (Scheduled)"
                             (emails_processed r)),
          tr').
Proof.
  destruct (run_full_pipeline_total w 168 tr) as (r & tr' & Hrun).
  exists r, tr'. split; [ exact Hrun | ].
  unfold Routes.scheduled_job, try_except, bind, read. now rewrite Hrun.
Qed.

(** The job of a morning without [credentials.json]. *)
Example scheduled_job_without_credentials :
  Routes.scheduled_job no_credentials_world example_timestamp Routes.never_run []
  = (Ok (Routes.LastRun (Some "2024-01-01 09:00:00") "Success (Scheduled)" 0),
     [GmailAuth]).
Proof. reflexivity. Qed.

(** X19. [fetch_emails] refuses with 400, before any call, every value of
    ['hours'] that is not a number of the interval, NaN apart.  A NaN passes
    the validation here too, and the route then authenticates with Gmail
    before the conversion of the value fails with 500. *)
Theorem fetch_emails_rejects (w : World) (v : App.json) (tr : trace) :
  (v <> App.JFloat FNan ->
   ~ in_range v ->
   Routes.fetch_emails w (Some v) tr
   = (Ok (Routes.FetchResponse 400 false (Some "Hours must be between 1 and 168") None []),
      tr))
  /\ (gmail_auth w tr = Ok tt ->
      Routes.fetch_emails w (Some (App.JFloat FNan)) tr
      = (Ok (Routes.FetchResponse 500 false
               (Some "Failed to fetch emails: cannot convert float NaN to integer")
               None []),
         tr ++ [GmailAuth])).
Proof.
  split.
  - intros Hnan Hout. apply (validation_refuses v Hnan) in Hout.
    unfold Routes.fetch_emails, try_except. now rewrite Hout.
  - intros Hauth.
    unfold Routes.fetch_emails, try_except, authenticate_gmail, bind, call, lift.
    cbn. now rewrite Hauth.
Qed.

(** X20. For a value of the interval, [fetch_emails] authenticates and
    fetches.  When the authentication raises, it answers 500 or 501 with no
    other call made; otherwise it answers 200 with the number of messages
    fetched and a preview of the first ten of them. *)
Theorem fetch_emails_preview (w : World) (v : App.json) (tr : trace) :
  in_range v ->
  exists h resp tr',
    App.int v = Ok h
    /\ Routes.fetch_emails w (Some v) tr = (Ok resp, tr')
    /\ (forall e, gmail_auth w tr = Raise e ->
                  tr' = tr ++ [GmailAuth]
                  /\ Routes.fetch_success resp = false
                  /\ (Routes.fetch_status resp = 500 \/ Routes.fetch_status resp = 501)%Z)
    /\ (gmail_auth w tr = Ok tt ->
        exists emails,
          fetch_customer_emails w h (tr ++ [GmailAuth]) = (Ok emails, tr')
          /\ Routes.fetch_status resp = 200%Z
          /\ Routes.fetch_count resp = Some (List.length emails)
          /\ Routes.fetch_emails_preview resp = firstn 10 emails
          /\ List.length (Routes.fetch_emails_preview resp) <= 10).
Proof.
  intros Hin. destruct (in_range_int v Hin) as (Hvalid & h & Hint & _).
  exists h.
  unfold Routes.fetch_emails, try_except. rewrite Hvalid.
  unfold authenticate_gmail, bind, call, lift. rewrite Hint.
  destruct (gmail_auth w tr) as [[] | e] eqn:Hauth.
  - destruct (fetch_customer_emails_total w h (tr ++ [GmailAuth])) as (emails & tr' & Hfetch).
    rewrite Hfetch. eexists. eexists. split; [ reflexivity | ].
    split; [ reflexivity | ]. split; [ discriminate | ].
    intros _. exists emails.
    cbn [Routes.fetch_status Routes.fetch_count Routes.fetch_emails_preview].
    repeat split. apply firstn_le_length.
  - destruct (String.eqb (exn_class e) "NotImplementedError");
      (eexists; eexists; split; [ reflexivity | ]; split; [ reflexivity | ];
       split; [ intros e0 _; cbn; auto | discriminate ]).
Qed.

Lemma fetch_emails_preview_witness :
  exists resp tr',
    Routes.fetch_emails flaky_mail_world (Some (App.JInt 24)) [] = (Ok resp, tr')
    /\ Routes.fetch_status resp = 200%Z.
Proof.
  destruct (fetch_emails_preview flaky_mail_world (App.JInt 24) [])
    as (h & resp & tr' & _ & Hroute & _ & Hok).
  - cbn. lia.
  - exists resp, tr'. split; [ exact Hroute | ].
    destruct (Hok eq_refl) as (emails & _ & Hstatus & _). exact Hstatus.
Defined.

(** X21. [send_digest] answers 500, without any post to the webhook, when
    the summary is an error (the store is not configured or the query
    raised).  Otherwise it answers 200 with the summary, and [success] is
    what [send_slack_digest] returned: a post that fails still gives 200. *)
Theorem send_digest_responses (w : World) (tr : trace) :
  exists resp tr',
    Routes.send_digest w tr = (Ok resp, tr')
    /\ (forall error tr1,
          get_notion_summary w tr = (Ok (SummaryError error), tr1) ->
          tr' = tr1
          /\ resp = Routes.DigestResponse 500 false
                      (Some ("Failed to get summary: " ++ error)%string) None)
    /\ (forall counts tr1,
          get_notion_summary w tr = (Ok (Summary counts), tr1) ->
          exists b,
            send_slack_digest w (Summary counts) tr1 = (Ok b, tr')
            /\ resp = Routes.DigestResponse 200 b None (Some (Summary counts))).
Proof.
  unfold Routes.send_digest, try_except. unfold bind at 1.
  destruct (get_notion_summary_total w tr) as (s & tr1 & Hsummary). rewrite Hsummary.
  destruct s as [error | counts].
  - eexists. eexists. split; [ reflexivity | ]. split.
    + intros error0 tr2 H. injection H as <- <-. split; reflexivity.
    + intros counts tr2 H. discriminate H.
  - unfold bind.
    destruct (send_slack_digest_total w (Summary counts) tr1) as (b & tr' & Hsend).
    rewrite Hsend. eexists. eexists. split; [ reflexivity | ]. split.
    + intros error tr2 H. discriminate H.
    + intros counts0 tr2 H. injection H as <- <-. exists b. split; [ exact Hsend | reflexivity ].
Qed.

(** X22. [classify_single] always answers, and calls nothing unless it
    classifies.  When [request.get_json()] raises, as it does for a request
    without a JSON body or with one that cannot be parsed, the answer is 500
    with the text of the exception (501 for a [NotImplementedError]), not
    400.  When the parsed value is false for Python, or is an object without
    a subject or without a body field, the answer is 400.  With both fields
    the answer is 200 with the classification of [classify_issue], never
    500. *)
Theorem classify_single_responses
  (w : World) (get_json : outcome Routes.json_body) (tr : trace) :
  exists resp tr',
    Routes.classify_single w get_json tr = (Ok resp, tr')
    /\ (forall e,
          get_json = Raise e ->
          tr' = tr
          /\ (exn_class e <> "NotImplementedError" ->
              resp = Routes.ClassifyResponse 500 false
                       (Some ("Classification failed: " ++ exn_str e)%string) None)
          /\ (exn_class e = "NotImplementedError" ->
              resp = Routes.ClassifyResponse 501 false
                       (Some "Classification not configured") None))
    /\ (forall data,
          get_json = Ok data ->
          (forall subject body,
             data <> Routes.Object (Routes.ClassifyRequest (Some subject) (Some body))) ->
          tr' = tr
          /\ resp = Routes.ClassifyResponse 400 false
                      (Some "Missing required fields: subject and body") None)
    /\ (forall subject body,
          get_json
          = Ok (Routes.Object (Routes.ClassifyRequest (Some subject) (Some body))) ->
          exists c,
            classify_issue w subject body tr = (Ok c, tr')
            /\ resp = Routes.ClassifyResponse 200 true None (Some c)).
Proof.
  unfold Routes.classify_single, try_except, bind at 1, lift.
  destruct get_json as [[ | [[subject | ] [body | ]]] | e];
    try (eexists; eexists; split; [ reflexivity | ];
         split; [ intros e H; discriminate H | ];
         split; [ intros data _ _; split; reflexivity | intros s b H; discriminate H ]).
  - unfold bind.
    destruct (classify_issue_total w subject body tr) as (c & tr' & Hc). rewrite Hc.
    eexists. eexists. split; [ reflexivity | ].
    split; [ intros e H; discriminate H | ]. split.
    + intros data [= <-] Hno. now destruct (Hno subject body).
    + intros s b [= <- <-]. exists c. split; [ exact Hc | reflexivity ].
  - destruct (String.eqb (exn_class e) "NotImplementedError") eqn:Hclass;
      (eexists; eexists; split; [ reflexivity | ]);
      (split; [ | split; [ intros data H; discriminate H | intros s b H; discriminate H ] ]);
      intros e' [= <-]; (split; [ reflexivity | ]).
    + apply String.eqb_eq in Hclass. split; [ intros H; now destruct H | reflexivity ].
    + apply String.eqb_neq in Hclass. split; [ reflexivity | intros H; now destruct Hclass ].
Qed.

(** ** Properties of the steps of [authenticate_gmail] *)

(** X23. With a saved token that is valid, [authenticate_gmail] only reads
    it and builds the service: nothing is refreshed, no authorization flow
    is run and [token.json] is not written. *)
Theorem authenticate_gmail_valid_token
  (env : Authenticate.environment) (c : Authenticate.credentials) :
  Authenticate.token_exists env = true ->
  Authenticate.from_authorized_user_file env = Ok c ->
  Authenticate.valid c = true ->
  Authenticate.authenticate_gmail env
  = (Authenticate.build env c, [Authenticate.ReadToken; Authenticate.Build c]).
Proof.
  intros Hexists Hload Hvalid.
  unfold Authenticate.authenticate_gmail, Authenticate.load_saved.
  now rewrite Hexists, Hload, Hvalid.
Qed.

Lemma authenticate_gmail_valid_token_witness :
  Authenticate.authenticate_gmail
    (Authenticate.Environment true (Ok (Authenticate.Credentials "ya29" true false true))
       (fun c => Ok c) false (Raise (Exn "Error" "no browser"))
       (fun _ => Ok tt) (fun _ => Ok "gmail"))
  = (Ok "gmail",
     [Authenticate.ReadToken;
      Authenticate.Build (Authenticate.Credentials "ya29" true false true)]).
Proof.
  exact (authenticate_gmail_valid_token
           (Authenticate.Environment true
              (Ok (Authenticate.Credentials "ya29" true false true))
              (fun c => Ok c) false (Raise (Exn "Error" "no browser"))
              (fun _ => Ok tt) (fun _ => Ok "gmail"))
           (Authenticate.Credentials "ya29" true false true) eq_refl eq_refl eq_refl).
Defined.

(** X24. When no usable credentials are left (no [token.json], a token that
    cannot be read, or an expired one whose refresh fails) and
    [credentials.json] is missing, [authenticate_gmail] raises
    [FileNotFoundError]; no flow is run, nothing is written and no service
    is built. *)
Theorem authenticate_gmail_credentials_not_found (env : Authenticate.environment) :
  Authenticate.no_saved_credentials env ->
  Authenticate.credentials_exists env = false ->
  exists steps,
    Authenticate.authenticate_gmail env = (Raise Authenticate.credentials_not_found, steps)
    /\ Forall (fun s => s = Authenticate.ReadToken \/ s = Authenticate.Refresh) steps.
Proof.
  intros Hnone Hfile.
  unfold Authenticate.authenticate_gmail, Authenticate.load_saved, Authenticate.renew,
    Authenticate.refresh_expired, Authenticate.run_flow.
  destruct Hnone as [Hexists | [(e & Hload) | (c & e & Hload & Hvalid & Hexp & Htok & Hrefresh)]].
  - rewrite Hexists, Hfile. eexists. split; [ reflexivity | constructor ].
  - rewrite Hload, Hfile. destruct (Authenticate.token_exists env); cbn;
      eexists; (split; [ reflexivity | repeat (apply Forall_cons; [ auto | ]); apply Forall_nil ]).
  - rewrite Hload. destruct (Authenticate.token_exists env).
    + rewrite Hvalid, Hexp, Htok. cbn [andb]. rewrite Hrefresh, Hfile. cbn.
      eexists. split; [ reflexivity | repeat (apply Forall_cons; [ auto | ]); apply Forall_nil ].
    + rewrite Hfile. cbn. eexists. split; [ reflexivity | constructor ].
Qed.

Lemma authenticate_gmail_credentials_not_found_witness :
  exists steps,
    Authenticate.authenticate_gmail Authenticate.empty_environment
    = (Raise Authenticate.credentials_not_found, steps).
Proof.
  destruct (authenticate_gmail_credentials_not_found Authenticate.empty_environment
              (or_introl eq_refl) eq_refl) as (steps & Hauth & _).
  exists steps. exact Hauth.
Defined.

(** X25. A saved token that is not valid and cannot be refreshed (it is not
    expired, or it has no refresh token) is not replaced: no authorization
    flow is run, even when [credentials.json] is there; the same credentials
    are written back to [token.json] and the service is built with them. *)
Theorem authenticate_gmail_keeps_invalid_token
  (env : Authenticate.environment) (c : Authenticate.credentials) :
  Authenticate.token_exists env = true ->
  Authenticate.from_authorized_user_file env = Ok c ->
  Authenticate.valid c = false ->
  Authenticate.expired c && Authenticate.refresh_token c = false ->
  Authenticate.write_token env c = Ok tt ->
  Authenticate.authenticate_gmail env
  = (Authenticate.build env c,
     [Authenticate.ReadToken; Authenticate.WriteToken c; Authenticate.Build c]).
Proof.
  intros Hexists Hload Hvalid Hrefresh Hwrite.
  unfold Authenticate.authenticate_gmail, Authenticate.load_saved, Authenticate.renew,
    Authenticate.refresh_expired, Authenticate.run_flow.
  now rewrite Hexists, Hload, Hvalid, Hrefresh, Hwrite.
Qed.

Lemma authenticate_gmail_keeps_invalid_token_witness :
  Authenticate.authenticate_gmail Authenticate.stale_environment
  = (Ok "gmail",
     [Authenticate.ReadToken; Authenticate.WriteToken Authenticate.stale;
      Authenticate.Build Authenticate.stale]).
Proof.
  exact (authenticate_gmail_keeps_invalid_token Authenticate.stale_environment
           Authenticate.stale eq_refl eq_refl eq_refl eq_refl eq_refl).
Defined.

(** X26. Whenever [authenticate_gmail] builds a service, it builds it last,
    from the credentials it has just written to [token.json], or from the
    valid ones it has read: [token.json] is written at most once, and only
    before the build. *)
Theorem authenticate_gmail_build_last (env : Authenticate.environment) :
  exists steps,
    snd (Authenticate.authenticate_gmail env) = steps
    /\ List.length (filter Authenticate.is_write steps) <= 1
    /\ (forall service,
          fst (Authenticate.authenticate_gmail env) = Ok service ->
          exists before c,
            steps = before ++ [Authenticate.Build c]
            /\ Authenticate.build env c = Ok service
            /\ (before = [Authenticate.ReadToken] /\ Authenticate.valid c = true
                \/ exists earlier, before = earlier ++ [Authenticate.WriteToken c]
                                   /\ Authenticate.write_token env c = Ok tt)).
Proof.
  eexists. split; [ reflexivity | ].
  unfold Authenticate.authenticate_gmail, Authenticate.load_saved, Authenticate.renew,
    Authenticate.refresh_expired, Authenticate.run_flow.
  repeat (match goal with
          | |- context [Authenticate.token_exists env] =>
              destruct (Authenticate.token_exists env) eqn:?
          | |- context [Authenticate.from_authorized_user_file env] =>
              destruct (Authenticate.from_authorized_user_file env) eqn:?
          | |- context [if Authenticate.valid ?c then _ else _] =>
              destruct (Authenticate.valid c) eqn:?
          | |- context [Authenticate.expired ?c && Authenticate.refresh_token ?c] =>
              destruct (Authenticate.expired c && Authenticate.refresh_token c) eqn:?
          | |- context [Authenticate.refresh env ?c] =>
              destruct (Authenticate.refresh env c) eqn:?
          | |- context [Authenticate.credentials_exists env] =>
              destruct (Authenticate.credentials_exists env) eqn:?
          | |- context [Authenticate.run_local_server env] =>
              destruct (Authenticate.run_local_server env) eqn:?
          | |- context [match Authenticate.write_token env ?c with _ => _ end] =>
              destruct (Authenticate.write_token env c) as [[] | ] eqn:?
          end; cbn [fst snd app]).
  all: cbn [filter Authenticate.is_write List.length];
    (split; [ lia | ]); intros service Hb; try discriminate Hb.
  all: match goal with
       | |- exists before c, ?steps = _ /\ _ => exists (removelast steps)
       end; cbn [removelast]; eexists; (split; [ reflexivity | ]);
       (split; [ exact Hb | ]).
  all: first
         [ left; split; [ reflexivity | assumption ]
         | right;
           match goal with
           | |- exists earlier, ?before = _ /\ _ => exists (removelast before)
           end; cbn [removelast];
           split; [ reflexivity | assumption ] ].
Qed.

(** ** Further properties: the body seen by the model, repeated runs *)

Lemma take_take (n : nat) (s : string) : take n (take n s) = take n s.
Proof.
  revert s. induction n as [ | n IH ]; intros [ | c s ]; cbn; try reflexivity.
  now rewrite IH.
Qed.

(** X27. The model sees the first 500 characters of a body only: the
    classification of a message, and the call made for it, are those of the
    message cut at 500 characters. *)
Theorem classify_issue_body_prefix (w : World) (subject body : string) (tr : trace) :
  classify_issue w subject body tr = classify_issue w subject (take 500 body) tr.
Proof.
  assert (Hprompt : prompt subject (take 500 body) = prompt subject body)
    by (unfold prompt; now rewrite take_take).
  now rewrite !classify_issue_cases, Hprompt.
Qed.

Section Uniform.

Lemma uniform_ret {A} (a : A) : uniform (ret a).
Proof. exists (Ok a), []. intros tr. unfold ret. now rewrite app_nil_r. Qed.

Lemma uniform_lift {A} (o : outcome A) : uniform (lift o).
Proof. exists o, []. intros tr. unfold lift. now rewrite app_nil_r. Qed.

Lemma uniform_bind {A B} (m : M A) (k : A -> M B) :
  uniform m -> (forall a, uniform (k a)) -> uniform (bind m k).
Proof.
  intros (o & evs & Hm) Hk. destruct o as [a | e].
  - destruct (Hk a) as (o2 & evs2 & Hka).
    exists o2, (evs ++ evs2). intros tr. unfold bind.
    now rewrite Hm, Hka, app_assoc.
  - exists (Raise e), evs. intros tr. unfold bind. now rewrite Hm.
Qed.

Lemma uniform_try_except {A} (m : M A) (handler : exn -> M A) :
  uniform m -> (forall e, uniform (handler e)) -> uniform (try_except m handler).
Proof.
  intros (o & evs & Hm) Hh. destruct o as [a | e].
  - exists (Ok a), evs. intros tr. unfold try_except. now rewrite Hm.
  - destruct (Hh e) as (o2 & evs2 & Hhe).
    exists o2, (evs ++ evs2). intros tr. unfold try_except.
    now rewrite Hm, Hhe, app_assoc.
Qed.

Lemma uniform_call {A} (ev : event) (oracle : trace -> outcome A) :
  (forall tr tr', oracle tr = oracle tr') -> uniform (call ev oracle).
Proof.
  intros Ho. exists (oracle []), [ev]. intros tr. unfold call. now rewrite (Ho tr []).
Qed.

Variable w : World.
Hypothesis Hmail : mailbox_stable w.

Lemma uniform_fetch_loop (messages : list string) :
  forall emails, uniform (fetch_loop w messages emails).
Proof.
  destruct Hmail as (_ & _ & _ & Hget).
  induction messages as [ | msg rest IH ]; intros emails; cbn [fetch_loop].
  - apply uniform_ret.
  - apply uniform_bind; [ | exact IH ].
    apply uniform_try_except; [ | intros; apply uniform_ret ].
    apply uniform_bind; [ | intros; apply uniform_ret ].
    unfold process_message.
    apply uniform_bind; [ apply uniform_call; intros; apply Hget | ].
    intros message. apply uniform_bind; [ apply uniform_lift | intros; apply uniform_ret ].
Qed.

Lemma uniform_fetch_customer_emails (hours_back : Z) :
  uniform (fetch_customer_emails w hours_back).
Proof.
  destruct Hmail as (Htime & _ & Hlist & _).
  unfold fetch_customer_emails.
  apply uniform_try_except; [ | intros; apply uniform_ret ].
  apply uniform_bind.
  - exists (time_ago w [] hours_back), []. intros tr.
    now rewrite (Htime tr []), app_nil_r.
  - intros after. apply uniform_bind; [ apply uniform_call; intros; apply Hlist | ].
    intros messages. apply uniform_fetch_loop.
Qed.

(** Step 1 finds the same messages, with the same calls, each time. *)
Lemma uniform_fetch_step (hours_back : Z) : uniform (fetch_step w hours_back).
Proof.
  unfold fetch_step, authenticate_gmail.
  apply uniform_bind; [ | intros; apply uniform_fetch_customer_emails ].
  apply uniform_call. destruct Hmail as (_ & Hauth & _). exact Hauth.
Qed.

End Uniform.

Section Created.

Lemma created_app (a b : trace) : created (a ++ b) = created a ++ created b.
Proof. apply flat_map_app. Qed.

Lemma created_none (evs : trace) :
  Forall (fun ev => is_create_event ev = false) evs -> created evs = [].
Proof.
  induction 1 as [ | ev evs Hev _ IH ]; [ reflexivity | ].
  destruct ev; try discriminate Hev; exact IH.
Qed.

Lemma stored_rows_length (tr : trace) :
  List.length (stored_rows tr) = List.length (created tr).
Proof.
  induction tr as [ | ev tr IH ]; [ reflexivity | ].
  destruct ev; cbn [stored_rows created flat_map app List.length];
    fold (stored_rows tr); fold (created tr); now rewrite IH.
Qed.

Variable w : World.
Hypothesis Hstore : store_configured w = true.

(** One turn of the loop of step 2 sends one create call, for the record of
    its message. *)
Lemma classify_loop_turn_created
      (e : email) (rest : list email) (processed : nat) (tr : trace) :
  exists (added : bool) (evs : trace),
    classify_loop w (e :: rest) processed tr
    = classify_loop w rest (if added then processed + 1 else processed) (tr ++ evs)
    /\ created evs = [record_key e].
Proof.
  cbn [classify_loop]. unfold bind at 1. unfold try_except, bind at 1.
  rewrite classify_issue_cases.
  destruct (client w).
  - unfold bind at 1. rewrite add_to_notion_cases, Hstore.
    match goal with
    | |- context [notion_create w ?t ?d ?r] =>
        exists (match notion_create w t d r with Ok _ => true | Raise _ => false end);
        exists [OpenAIChat (prompt (subject e) (body e)); NotionCreate d r];
        destruct (notion_create w t d r)
    end; rewrite <- app_assoc; split; reflexivity.
  - unfold bind at 1. rewrite add_to_notion_cases, Hstore.
    match goal with
    | |- context [notion_create w ?t ?d ?r] =>
        exists (match notion_create w t d r with Ok _ => true | Raise _ => false end);
        exists [NotionCreate d r];
        destruct (notion_create w t d r)
    end; split; reflexivity.
Qed.

Lemma classify_loop_created (emails : list email) :
  forall (processed : nat) (tr : trace),
  exists n evs,
    classify_loop w emails processed tr = (Ok n, tr ++ evs)
    /\ created evs = map record_key emails.
Proof.
  induction emails as [ | e rest IH ]; intros processed tr.
  - exists processed, []. rewrite app_nil_r. split; reflexivity.
  - destruct (classify_loop_turn_created e rest processed tr)
      as (added & evs1 & -> & Hcreated1).
    destruct (IH (if added then processed + 1 else processed) (tr ++ evs1))
      as (n & evs2 & -> & Hcreated2).
    exists n, (evs1 ++ evs2). rewrite app_assoc. split; [ reflexivity | ].
    now rewrite created_app, Hcreated1, Hcreated2.
Qed.

(** The digest of step 3 shows as total the number of rows of the store. *)
Lemma digest_step_posted (tr : trace) (rows : list page) :
  webhook_configured w = true ->
  notion_query w tr (database_id w) = Ok rows ->
  exists sent message,
    digest_step w tr
    = (Ok sent, tr ++ [NotionQuery (database_id w); SlackPost (webhook_url w) message])
    /\ digest_total message = List.length rows.
Proof.
  intros Hhook Hquery. unfold digest_step, try_except. unfold bind at 1.
  rewrite get_notion_summary_cases, Hstore, Hquery.
  rewrite send_slack_digest_cases, Hhook. cbn zeta.
  eexists. eexists. rewrite <- app_assoc. split; [ reflexivity | ].
  cbn [digest_total]. exact (proj1 (summarize_parts rows)).
Qed.

(** A run from any trace, when step 1 finds [emails] with the calls [gm]. *)
Lemma run_full_pipeline_created
      (hours_back : Z) (tr gm : trace) (emails : list email) :
  fetch_step w hours_back tr = (Ok emails, tr ++ gm) ->
  created gm = [] ->
  exists r evs,
    run_full_pipeline w hours_back tr = (Ok r, tr ++ evs)
    /\ emails_found r = List.length emails
    /\ error r = None
    /\ created evs = map record_key emails
    /\ (webhook_configured w = true -> remembers w ->
        exists before message,
          evs = before ++ [SlackPost (webhook_url w) message]
          /\ digest_total message
             = List.length (created tr) + List.length emails).
Proof.
  intros Hfetch Hgm. unfold run_full_pipeline. rewrite Hfetch. unfold bind at 1.
  destruct (classify_loop_created emails 0 (tr ++ gm)) as (n & evs2 & -> & Hcreated).
  unfold bind at 1.
  destruct (digest_step_shape w ((tr ++ gm) ++ evs2))
    as (sent & evs3 & Hdigest & Hkind & _).
  rewrite Hdigest. unfold ret.
  exists (MkRunResult (List.length emails) n sent None), (gm ++ evs2 ++ evs3).
  rewrite <- !app_assoc.
  split; [ reflexivity | ]. split; [ reflexivity | ]. split; [ reflexivity | ].
  assert (Hnone : created evs3 = []).
  { apply created_none. revert Hkind. apply Forall_impl. now intros []. }
  split; [ now rewrite !created_app, Hgm, Hcreated, Hnone, app_nil_r | ].
  intros Hhook Hrem.
  destruct (Hrem ((tr ++ gm) ++ evs2)) as (rows & Hquery & Hrows).
  destruct (digest_step_posted ((tr ++ gm) ++ evs2) rows Hhook Hquery)
    as (sent' & message & Hposted & Htotal).
  rewrite Hposted in Hdigest. injection Hdigest as _ Hevs.
  apply app_inv_head in Hevs. subst evs3.
  exists (gm ++ evs2 ++ [NotionQuery (database_id w)]), message.
  split; [ now rewrite <- !app_assoc | ].
  rewrite Htotal, Hrows, !created_app, Hgm, Hcreated, length_app, length_app, length_map.
  cbn [List.length]. lia.
Qed.

End Created.

(** X28. Runs are not idempotent.  When the mailbox answers the same each
    time and the store is configured, a second run over the same window
    finds the messages of the first and sends a create call for each of them
    again, in the same order and with the same title and description:
    nothing is looked up before a record is created.  With a store that
    keeps a row for every create call, the digest of the first run counts
    each message once more than the store held, and the digest of the
    second run counts each message twice. *)
Theorem run_full_pipeline_twice (w : World) (hours_back : Z) (tr : trace) :
  mailbox_stable w ->
  store_configured w = true ->
  exists emails r1 r2 evs1 evs2,
    run_full_pipeline w hours_back tr = (Ok r1, tr ++ evs1)
    /\ run_full_pipeline w hours_back (tr ++ evs1) = (Ok r2, (tr ++ evs1) ++ evs2)
    /\ (forall found, fst (fetch_step w hours_back tr) = Ok found -> emails = found)
    /\ emails_found r1 = List.length emails
    /\ emails_found r2 = List.length emails
    /\ created evs1 = map record_key emails
    /\ created evs2 = map record_key emails
    /\ (error r1 = None -> webhook_configured w = true -> remembers w ->
        exists before1 message1 before2 message2,
          evs1 = before1 ++ [SlackPost (webhook_url w) message1]
          /\ evs2 = before2 ++ [SlackPost (webhook_url w) message2]
          /\ digest_total message1
             = List.length (created tr) + List.length emails
          /\ digest_total message2
             = List.length (created tr) + 2 * List.length emails).
Proof.
  intros Hmail Hstore.
  destruct (uniform_fetch_step w Hmail hours_back) as (o & gm & Hfetch).
  assert (Hgm : created gm = []).
  { destruct (fetch_step_shape w hours_back tr) as (gm' & Hsnd & Hkind).
    rewrite Hfetch in Hsnd. cbn [snd] in Hsnd. apply app_inv_head in Hsnd. subst gm'.
    apply created_none. revert Hkind. apply Forall_impl. now intros []. }
  destruct o as [emails | e].
  - destruct (run_full_pipeline_created w Hstore hours_back tr gm emails
                (Hfetch tr) Hgm)
      as (r1 & evs1 & Hrun1 & Hfound1 & Herror1 & Hcreated1 & Hdigest1).
    destruct (run_full_pipeline_created w Hstore hours_back (tr ++ evs1) gm emails
                (Hfetch (tr ++ evs1)) Hgm)
      as (r2 & evs2 & Hrun2 & Hfound2 & Herror2 & Hcreated2 & Hdigest2).
    exists emails, r1, r2, evs1, evs2.
    split; [ exact Hrun1 | ]. split; [ exact Hrun2 | ].
    split; [ rewrite Hfetch; cbn [fst]; now intros found [= <-] | ].
    split; [ exact Hfound1 | ]. split; [ exact Hfound2 | ].
    split; [ exact Hcreated1 | ]. split; [ exact Hcreated2 | ].
    intros _ Hhook Hrem.
    destruct (Hdigest1 Hhook Hrem) as (before1 & message1 & Hevs1 & Htotal1).
    destruct (Hdigest2 Hhook Hrem) as (before2 & message2 & Hevs2 & Htotal2).
    exists before1, message1, before2, message2.
    split; [ exact Hevs1 | ]. split; [ exact Hevs2 | ]. split; [ exact Htotal1 | ].
    rewrite Htotal2, created_app, Hcreated1, length_app, length_map. lia.
  - exists [], (MkRunResult 0 0 false (Some (exn_str e))),
           (MkRunResult 0 0 false (Some (exn_str e))), gm, gm.
    unfold run_full_pipeline. rewrite !Hfetch.
    split; [ reflexivity | ]. split; [ reflexivity | ].
    split; [ cbn [fst]; intros found H; discriminate H | ].
    split; [ reflexivity | ]. split; [ reflexivity | ].
    split; [ exact Hgm | ]. split; [ exact Hgm | ].
    intros H. discriminate H.
Qed.

Lemma remembering_world_remembers : remembers remembering_world.
Proof.
  intros tr. exists (stored_rows tr). split; [ reflexivity | apply stored_rows_length ].
Qed.

Lemma run_full_pipeline_twice_witness :
  exists r1 r2 evs1 evs2 message2,
    run_full_pipeline remembering_world 24 [] = (Ok r1, evs1)
    /\ run_full_pipeline remembering_world 24 evs1 = (Ok r2, evs1 ++ evs2)
    /\ emails_found r1 = 2
    /\ emails_found r2 = 2
    /\ created (evs1 ++ evs2)
       = [("m1", "jam"); ("m2", "jam"); ("m1", "jam"); ("m2", "jam")]
    /\ In (SlackPost "https://hooks.example/T" message2) evs2
    /\ digest_total message2 = 4.
Proof.
  destruct (run_full_pipeline_twice remembering_world 24 []
              (conj (fun _ _ _ => eq_refl)
                    (conj (fun _ _ => eq_refl)
                          (conj (fun _ _ _ => eq_refl) (fun _ _ _ => eq_refl))))
              eq_refl)
    as (emails & r1 & r2 & evs1 & evs2 & Hrun1 & Hrun2 & Hemails & Hfound1 & Hfound2
        & Hcreated1 & Hcreated2 & Hdigest).
  specialize (Hemails _ eq_refl). subst emails.
  assert (Herror : error r1 = None).
  { cbv in Hrun1. now injection Hrun1 as <- _. }
  destruct (Hdigest Herror eq_refl remembering_world_remembers)
    as (before1 & message1 & before2 & message2 & _ & Hevs2 & _ & Htotal2).
  exists r1, r2, evs1, evs2, message2.
  split; [ exact Hrun1 | ]. split; [ exact Hrun2 | ].
  split; [ exact Hfound1 | ]. split; [ exact Hfound2 | ].
  split; [ now rewrite created_app, Hcreated1, Hcreated2 | ].
  split; [ rewrite Hevs2; apply in_or_app; right; left; reflexivity | exact Htotal2 ].
Defined.

(** X29. When the store is configured and every create call succeeds,
    every message found is counted as processed. *)
Theorem run_full_pipeline_all_stored (w : World) (hours_back : Z) (tr : trace) :
  store_configured w = true ->
  (forall tr0 db properties, notion_create w tr0 db properties = Ok tt) ->
  exists r tr',
    run_full_pipeline w hours_back tr = (Ok r, tr')
    /\ emails_processed r = emails_found r.
Proof.
  intros Hstore Hcreate.
  assert (Hloop : forall emails processed tr0,
             exists tr1, classify_loop w emails processed tr0
                         = (Ok (processed + List.length emails), tr1)).
  { induction emails as [ | e rest IH ]; intros processed tr0.
    - exists tr0. cbn. now rewrite Nat.add_0_r.
    - cbn [classify_loop]. unfold bind at 1. unfold try_except, bind at 1.
      destruct (classify_issue_total w (subject e) (body e) tr0) as (c & tr1 & ->).
      unfold bind at 1. rewrite add_to_notion_cases, Hstore, Hcreate.
      destruct (IH (processed + 1) (tr1 ++ [NotionCreate (database_id w) (record_of w tr1 e c)]))
        as (tr2 & Hrest).
      exists tr2. unfold ret. rewrite Hrest. cbn [List.length]. f_equal. f_equal. lia. }
  unfold run_full_pipeline.
  destruct (fetch_step w hours_back tr) as [[emails | e] tr1].
  - destruct (Hloop emails 0 tr1) as (tr2 & Hn).
    unfold bind at 1. rewrite Hn. unfold bind at 1.
    destruct (digest_step_total w tr2) as (sent & tr3 & ->).
    eexists. eexists. split; [ reflexivity | reflexivity ].
  - eexists. eexists. split; [ reflexivity | reflexivity ].
Qed.

Lemma run_full_pipeline_all_stored_witness :
  exists r tr',
    run_full_pipeline (example_world (Ok (Some "Category: Network")) (Ok three_rows)) 24 []
      = (Ok r, tr')
    /\ emails_processed r = emails_found r.
Proof.
  exact (run_full_pipeline_all_stored
           (example_world (Ok (Some "Category: Network")) (Ok three_rows)) 24 []
           eq_refl (fun _ _ _ => eq_refl)).
Defined.
